(** * TPM service layer (src/security/tpm/tspi/tspi.c)

    A shallow embedding of coreboot's TSPI layer: the state reconciler of
    TPM 1.2 devices, the S3 resume helper, [tpm_setup], [tpm_clear_and_reenable],
    [tpm_extend_pcr] and the chunked [tpm_measure_region].

    The C functions talk to four collaborators that live outside this file
    (the TSS command transport [tlcl_*], vboot's digest API [vb2_digest_*],
    the region device [rdev_readat] and the TCPA log).  Every call made to a
    collaborator is appended to a trace; what the collaborator answers is
    given by an environment that sees the whole trace so far, so a device may
    answer the same command differently at different moments. *)

From Stdlib Require Import ZArith List String Bool Lia.
Import ListNotations.
Open Scope Z_scope.

(** ** Data model *)

(** Modelled from the spec: the [TPM_*] status macros come from a header that
    is not part of this file.  The ones the source names are kept apart from
    each other and from every other code a device may answer with (section 3
    of the specification enumerates them as distinct outcomes). *)
Inductive tpm_status : Type :=
| TPM_SUCCESS
| TPM_E_IOERROR
| TPM_E_INVALID_ARG
| TPM_E_HASH_ERROR
| TPM_E_READ_FAILURE
| TPM_E_INVALID_POSTINIT
| TPM_E_MUST_REBOOT
| TPM_E_DEVICE (code : N).

(** [result != TPM_SUCCESS] *)
Definition failed (result : tpm_status) : bool :=
  match result with
  | TPM_SUCCESS => false
  | _ => true
  end.

(** [enum vb2_hash_algorithm]: the three selectors the source names, and any
    other value of the enumeration. *)
Inductive vb2_hash_algorithm : Type :=
| VB2_HASH_SHA1
| VB2_HASH_SHA256
| VB2_HASH_SHA512
| VB2_HASH_OTHER (tag : N).

Inductive loglevel : Type := BIOS_ERR | BIOS_INFO | BIOS_DEBUG.

(** Build-time configuration ([CONFIG(...)]) and the constants of the headers
    the file includes.  [CONFIG(TPM1)] and [CONFIG(TPM2)] are two separate
    symbols in the source and stay two separate switches here. *)
Record config : Type := {
  CONFIG_TPM1 : bool;
  CONFIG_TPM2 : bool;
  CONFIG_TPM_DEACTIVATE : bool;
  CONFIG_TPM_STARTUP_IGNORE_POSTINIT : bool;
  CONFIG_VBOOT_MEASURED_BOOT : bool;
  TPM_PCR_MAX_LEN : Z;
  HASH_DATA_CHUNK_SIZE : Z;
  TPM_ALG_SHA1 : Z;
  TPM_ALG_SHA256 : Z;
  TPM_ALG_SHA512 : Z;
  POST_TPM_FAILURE : Z
}.

(** [struct region_device], seen through [region_device_sz] and the bytes
    [rdev_readat] delivers. *)
Record region_device : Type := {
  region_device_sz : Z;
  rdev_byte : Z -> Byte.byte
}.

(** The bytes of a region in [offset, offset + n). *)
Fixpoint rdev_bytes (rdev : region_device) (offset : Z) (n : nat) : list Byte.byte :=
  match n with
  | O => []
  | S n' => rdev_byte rdev offset :: rdev_bytes rdev (offset + 1) n'
  end.

(** [struct vb2_digest_context]: the algorithm and what was absorbed so far. *)
Record vb2_digest_context : Type := {
  ctx_alg : vb2_hash_algorithm;
  ctx_data : list Byte.byte
}.

(** Calls that leave this file, with their arguments. *)
Inductive call : Type :=
| Tlcl_lib_init
| Tlcl_startup
| Tlcl_resume
| Tlcl_assert_physical_presence
| Tlcl_physical_presence_cmd_enable
| Tlcl_get_flags
| Tlcl_set_enable
| Tlcl_set_deactivated (flag : Z)
| Tlcl_force_clear
| Tlcl_extend (pcr : Z) (algorithm : Z) (digest : list Byte.byte) (digest_len : Z)
| Tcpa_log_add_table_entry (name : option string) (pcr : Z)
    (digest_algo : vb2_hash_algorithm) (digest : list Byte.byte) (digest_len : Z)
| Post_code (code : Z)
| Rdev_readat (offset : Z) (len : Z)
| Vb2_digest_init (hash_alg : vb2_hash_algorithm)
| Vb2_digest_extend (buf : list Byte.byte) (len : Z)
| Vb2_digest_finalize (digest_len : Z).

(** What the collaborators answer.  Each answer may depend on every call
    issued before it. *)
Record collaborators : Type := {
  (** status returned by a [tlcl_*] command *)
  tlcl_reply : list call -> call -> tpm_status;
  (** the two bytes [tlcl_get_flags] stores through its pointers:
      (disabled, deactivated) *)
  tlcl_flags : list call -> Z * Z;
  (** [true] when [rdev_readat] returns a negative value *)
  rdev_reply : list call -> Z -> Z -> bool;
  (** [true] when a [vb2_digest_*] call returns non-zero *)
  vb2_reply : list call -> call -> bool;
  vb2_digest_size : vb2_hash_algorithm -> Z;
  (** the digest of a byte string *)
  vb2_hash : vb2_hash_algorithm -> list Byte.byte -> list Byte.byte
}.

(** The observable state: the calls issued so far and the console. *)
Record world : Type := {
  calls : list call;
  console : list (loglevel * string)
}.

Definition initial_world : world := {| calls := []; console := [] |}.

(** ** A state monad over [world] *)

Definition M (A : Type) : Type := world -> A * world.

Definition ret {A : Type} (a : A) : M A := fun w => (a, w).

Definition bind {A B : Type} (c : M A) (k : A -> M B) : M B :=
  fun w => let (a, w') := c w in k a w'.

Declare Scope tspi_scope.
Delimit Scope tspi_scope with tspi.
Notation "x <- c ;; k" := (bind c (fun x => k))
  (at level 61, c at next level, right associativity) : tspi_scope.
Notation "c ;; k" := (bind c (fun _ => k))
  (at level 61, right associativity) : tspi_scope.
Open Scope tspi_scope.

Definition issue (c : call) : M unit :=
  fun w => (tt, {| calls := calls w ++ [c]; console := console w |}).

Definition printk (level : loglevel) (fmt : string) : M unit :=
  fun w => (tt, {| calls := calls w; console := console w ++ [(level, fmt)] |}).

(** Moduli of [uint8_t] and [uint32_t] arithmetic. *)
Definition uint8_modulus : Z := 2 ^ 8.
Definition uint32_modulus : Z := 2 ^ 32.

(** C truth value of a byte, and [!x]. *)
Definition nonzero (x : Z) : bool := negb (x =? 0).
Definition lnot (x : Z) : Z := if x =? 0 then 1 else 0.

Section Tspi.

Variable cfg : config.
Variable env : collaborators.

(** ** Collaborator calls *)

(** Modelled from the spec: the command transport ([tlcl_*], section 6) is
    implemented outside this file.  A command is appended to the trace and
    answered by the environment, which saw the trace up to that command. *)
Definition tlcl (c : call) : M tpm_status :=
  fun w => (tlcl_reply env (calls w) c, snd (issue c w)).

Definition tlcl_lib_init : M tpm_status := tlcl Tlcl_lib_init.
Definition tlcl_startup : M tpm_status := tlcl Tlcl_startup.
Definition tlcl_resume : M tpm_status := tlcl Tlcl_resume.
Definition tlcl_assert_physical_presence : M tpm_status :=
  tlcl Tlcl_assert_physical_presence.
Definition tlcl_physical_presence_cmd_enable : M tpm_status :=
  tlcl Tlcl_physical_presence_cmd_enable.
Definition tlcl_set_enable : M tpm_status := tlcl Tlcl_set_enable.
Definition tlcl_set_deactivated (flag : Z) : M tpm_status :=
  tlcl (Tlcl_set_deactivated flag).
Definition tlcl_force_clear : M tpm_status := tlcl Tlcl_force_clear.
Definition tlcl_extend (pcr algorithm : Z) (digest : list Byte.byte)
    (digest_len : Z) : M tpm_status :=
  tlcl (Tlcl_extend pcr algorithm digest digest_len).

(** Modelled from the spec: [tlcl_get_flags(&disabled, &deactivated, NULL)]
    gives a status and the two capability flags. *)
Definition tlcl_get_flags : M (tpm_status * Z * Z) :=
  fun w =>
    let (disabled, deactivated) := tlcl_flags env (calls w) in
    (tlcl_reply env (calls w) Tlcl_get_flags, disabled, deactivated,
     snd (issue Tlcl_get_flags w)).

Definition tcpa_log_add_table_entry (name : option string) (pcr : Z)
    (digest_algo : vb2_hash_algorithm) (digest : list Byte.byte)
    (digest_len : Z) : M unit :=
  issue (Tcpa_log_add_table_entry name pcr digest_algo digest digest_len).

Definition post_code (code : Z) : M unit := issue (Post_code code).

(** Modelled from the spec: [rdev_readat(rdev, buf, offset, len)] of the
    region collaborator.  [None] stands for a negative return, otherwise the
    result holds the [len] bytes of the region now in [buf]. *)
Definition rdev_readat (rdev : region_device) (offset len : Z)
    : M (option (list Byte.byte)) :=
  fun w =>
    (if rdev_reply env (calls w) offset len then None
     else Some (rdev_bytes rdev offset (Z.to_nat len)),
     snd (issue (Rdev_readat offset len) w)).

(** Modelled from the spec: the streaming hash of the hashing collaborator.
    [vb2_digest_init(&ctx, hash_alg)] gives an empty context; [None] stands
    for a non-zero return. *)
Definition vb2_digest_init (hash_alg : vb2_hash_algorithm)
    : M (option vb2_digest_context) :=
  fun w =>
    (if vb2_reply env (calls w) (Vb2_digest_init hash_alg) then None
     else Some {| ctx_alg := hash_alg; ctx_data := [] |},
     snd (issue (Vb2_digest_init hash_alg) w)).

(** Modelled from the spec: [vb2_digest_extend(&ctx, buf, len)] absorbs
    the [len] bytes of [buf] after those absorbed before. *)
Definition vb2_digest_extend (ctx : vb2_digest_context) (buf : list Byte.byte)
    (len : Z) : M (option vb2_digest_context) :=
  fun w =>
    (if vb2_reply env (calls w) (Vb2_digest_extend buf len) then None
     else Some {| ctx_alg := ctx_alg ctx; ctx_data := ctx_data ctx ++ buf |},
     snd (issue (Vb2_digest_extend buf len) w)).

(** Modelled from the spec: [vb2_digest_finalize(&ctx, digest, digest_len)]
    writes the digest of everything absorbed, in the order it was absorbed. *)
Definition vb2_digest_finalize (ctx : vb2_digest_context) (digest_len : Z)
    : M (option (list Byte.byte)) :=
  fun w =>
    (if vb2_reply env (calls w) (Vb2_digest_finalize digest_len) then None
     else Some (vb2_hash env (ctx_alg ctx) (ctx_data ctx)),
     snd (issue (Vb2_digest_finalize digest_len) w)).

(** ** The state reconciler (TPM 1.2) *)

(** Lines 53-67 of the source: the comparison of [deactivated] with
    [CONFIG(TPM_DEACTIVATE)] and what follows it. *)
Definition toggle_deactivated (deactivated : Z) (result : tpm_status)
    : M tpm_status :=
  if negb (Bool.eqb (nonzero deactivated) (CONFIG_TPM_DEACTIVATE cfg)) then
    printk BIOS_INFO "TPM: Unexpected TPM deactivated state. Toggling...\n" ;;
    result <- tlcl_set_deactivated (lnot deactivated) ;;
    if failed result then
      printk BIOS_ERR "TPM: Can't toggle deactivated state.\n" ;;
      ret result
    else
      ret TPM_E_MUST_REBOOT
  else
    ret result.

Definition tpm1_invoke_state_machine : M tpm_status :=
  flags <- tlcl_get_flags ;;
  let '(result, disabled, deactivated) := flags in
  if failed result then
    printk BIOS_ERR "TPM: Can't read capabilities.\n" ;;
    ret result
  else if nonzero disabled then
    printk BIOS_INFO "TPM: is disabled. Enabling...\n" ;;
    result <- tlcl_set_enable ;;
    if failed result then
      printk BIOS_ERR "TPM: Can't set enabled state.\n" ;;
      ret result
    else
      toggle_deactivated deactivated result
  else
    toggle_deactivated deactivated result.

(** ** Resume, epilogue and setup *)

Definition tpm_setup_s3_helper : M tpm_status :=
  result <- tlcl_resume ;;
  match result with
  | TPM_SUCCESS => ret result
  | TPM_E_INVALID_POSTINIT =>
      printk BIOS_INFO "TPM: Already initialized.\n" ;;
      ret TPM_SUCCESS
  | _ =>
      printk BIOS_ERR "TPM: Resume failed (%#x).\n" ;;
      ret result
  end.

Definition tpm_setup_epilogue (result : tpm_status) : M tpm_status :=
  (if failed result then post_code (POST_TPM_FAILURE cfg)
   else printk BIOS_INFO "TPM: setup succeeded\n") ;;
  ret result.

(** [startup] remapped as lines 144-148 do. *)
Definition ignore_postinit (result : tpm_status) : M tpm_status :=
  match result with
  | TPM_E_INVALID_POSTINIT =>
      if CONFIG_TPM_STARTUP_IGNORE_POSTINIT cfg then
        printk BIOS_DEBUG "TPM: ignoring invalid POSTINIT\n" ;;
        ret TPM_SUCCESS
      else ret result
  | _ => ret result
  end.

(** Lines 174-178: the reconciler, compiled in under [CONFIG(TPM1)] only. *)
Definition tpm_setup_finish (result : tpm_status) : M tpm_status :=
  result <- (if CONFIG_TPM1 cfg then tpm1_invoke_state_machine else ret result) ;;
  tpm_setup_epilogue result.

Definition tpm_setup (s3flag : Z) : M tpm_status :=
  result <- tlcl_lib_init ;;
  if failed result then
    printk BIOS_ERR "TPM: Can't initialize.\n" ;;
    tpm_setup_epilogue result
  else if nonzero s3flag then
    printk BIOS_INFO "TPM: Handle S3 resume.\n" ;;
    result <- tpm_setup_s3_helper ;;
    tpm_setup_epilogue result
  else
    result <- tlcl_startup ;;
    result <- ignore_postinit result ;;
    if failed result then
      printk BIOS_ERR "TPM: Can't run startup command.\n" ;;
      tpm_setup_epilogue result
    else
      result <- tlcl_assert_physical_presence ;;
      if failed result then
        result <- tlcl_physical_presence_cmd_enable ;;
        if failed result then
          printk BIOS_ERR "TPM: Can't enable physical presence command.\n" ;;
          tpm_setup_epilogue result
        else
          result <- tlcl_assert_physical_presence ;;
          if failed result then
            printk BIOS_ERR "TPM: Can't assert physical presence.\n" ;;
            tpm_setup_epilogue result
          else
            tpm_setup_finish result
      else
        tpm_setup_finish result.

Definition tpm_clear_and_reenable : M tpm_status :=
  printk BIOS_INFO "TPM: Clear and re-enable\n" ;;
  result <- tlcl_force_clear ;;
  if failed result then
    printk BIOS_ERR "TPM: Can't initiate a force clear.\n" ;;
    ret result
  else if CONFIG_TPM1 cfg then
    result <- tlcl_set_enable ;;
    if failed result then
      printk BIOS_ERR "TPM: Can't set enabled state.\n" ;;
      ret result
    else
      result <- tlcl_set_deactivated 0 ;;
      if failed result then
        printk BIOS_ERR "TPM: Can't set deactivated state.\n" ;;
        ret result
      else
        ret TPM_SUCCESS
  else
    ret TPM_SUCCESS.

(** ** PCR extension *)

(** The [switch] of lines 219-231, compiled in under [CONFIG(TPM2)];
    without it [algorithm] keeps its initial value 0.  [None] is the
    [default:] branch. *)
Definition select_algorithm (digest_algo : vb2_hash_algorithm) : option Z :=
  if CONFIG_TPM2 cfg then
    match digest_algo with
    | VB2_HASH_SHA1 => Some (TPM_ALG_SHA1 cfg)
    | VB2_HASH_SHA256 => Some (TPM_ALG_SHA256 cfg)
    | VB2_HASH_SHA512 => Some (TPM_ALG_SHA512 cfg)
    | VB2_HASH_OTHER _ => None
    end
  else Some 0.

(** A NULL [digest] is [None]. *)
Definition tpm_extend_pcr (pcr : Z) (digest_algo : vb2_hash_algorithm)
    (digest : option (list Byte.byte)) (digest_len : Z) (name : option string)
    : M tpm_status :=
  match digest with
  | None => ret TPM_E_IOERROR
  | Some digest =>
      match select_algorithm digest_algo with
      | None => ret TPM_E_HASH_ERROR
      | Some algorithm =>
          result <- tlcl_extend pcr algorithm digest digest_len ;;
          if failed result then ret result
          else
            (if CONFIG_VBOOT_MEASURED_BOOT cfg then
               tcpa_log_add_table_entry name pcr digest_algo digest digest_len
             else ret tt) ;;
            ret TPM_SUCCESS
      end
  end.

(** ** Region measurement *)

(** How a call of [tpm_measure_region] ends: it returns a status, or it
    stops at the assertion of line 270.  Past a failed assertion
    [vb2_digest_finalize] would be handed a length larger than the buffer,
    so nothing beyond that point is modelled. *)
Inductive outcome : Type :=
| Returned (result : tpm_status)
| Assert_failed.

(** [MIN(sizeof(buf), region_device_sz(rdev) - offset)].  The subtraction is
    evaluated under the loop guard [offset < region_device_sz(rdev)] only, so
    it does not wrap. *)
Definition chunk_len (rdev : region_device) (offset : Z) : Z :=
  Z.min (HASH_DATA_CHUNK_SIZE cfg) (region_device_sz rdev - offset).

(** [offset += len] on a [uint32_t]. *)
Definition next_offset (offset len : Z) : Z := (offset + len) mod uint32_modulus.

(** The [for] loop of lines 280-291.  [None]: the fuel ran out before the
    loop ended.  [inl]: a [return] inside the body.  [inr]: the loop ended
    and the context holds every chunk. *)
Fixpoint hash_chunks (fuel : nat) (rdev : region_device) (offset : Z)
    (ctx : vb2_digest_context) (w : world)
    : option ((tpm_status + vb2_digest_context) * world) :=
  match fuel with
  | O => None
  | S fuel' =>
      if offset <? region_device_sz rdev then
        let len := chunk_len rdev offset in
        let (buf, w) := rdev_readat rdev offset len w in
        match buf with
        | None =>
            let (_, w) := printk BIOS_ERR "TPM: Not able to read region %s.\n" w in
            Some (inl TPM_E_READ_FAILURE, w)
        | Some buf =>
            let (ctx', w) := vb2_digest_extend ctx buf len w in
            match ctx' with
            | None =>
                let (_, w) := printk BIOS_ERR "TPM: Error extending hash.\n" w in
                Some (inl TPM_E_HASH_ERROR, w)
            | Some ctx' => hash_chunks fuel' rdev (next_offset offset len) ctx' w
            end
        end
      else Some (inr ctx, w)
  end.

(** [hash_alg] as lines 263-267 choose it. *)
Definition measure_hash_alg : vb2_hash_algorithm :=
  if CONFIG_TPM1 cfg then VB2_HASH_SHA1 else VB2_HASH_SHA256.

(** [digest_len = vb2_digest_size(hash_alg)], stored in a [uint8_t]. *)
Definition measure_digest_len : Z :=
  vb2_digest_size env measure_hash_alg mod uint8_modulus.

(** Lines 292-302. *)
Definition finalize_and_extend (ctx : vb2_digest_context) (pcr : Z)
    (rname : option string) : M tpm_status :=
  digest <- vb2_digest_finalize ctx measure_digest_len ;;
  match digest with
  | None =>
      printk BIOS_ERR "TPM: Error finalizing hash.\n" ;;
      ret TPM_E_HASH_ERROR
  | Some digest =>
      result <- tpm_extend_pcr pcr measure_hash_alg (Some digest)
                  measure_digest_len rname ;;
      if failed result then
        printk BIOS_ERR "TPM: Extending hash into PCR failed.\n" ;;
        ret result
      else
        printk BIOS_DEBUG "TPM: Measured %s into PCR %d\n" ;;
        ret TPM_SUCCESS
  end.

(** NULL [rdev] and NULL [rname] are [None]. *)
Definition tpm_measure_region (fuel : nat) (rdev : option region_device)
    (pcr : Z) (rname : option string) (w : world) : option (outcome * world) :=
  match rdev, rname with
  | Some rd, Some _ =>
      let (result, w) := tlcl_lib_init w in
      if failed result then
        let (_, w) := printk BIOS_ERR "TPM: Can't initialize library.\n" w in
        Some (Returned result, w)
      else if TPM_PCR_MAX_LEN cfg <? measure_digest_len then
        Some (Assert_failed, w)
      else
        let (ctx, w) := vb2_digest_init measure_hash_alg w in
        match ctx with
        | None =>
            let (_, w) := printk BIOS_ERR "TPM: Error initializing hash.\n" w in
            Some (Returned TPM_E_HASH_ERROR, w)
        | Some ctx =>
            match hash_chunks fuel rd 0 ctx w with
            | None => None
            | Some (inl result, w) => Some (Returned result, w)
            | Some (inr ctx, w) =>
                let (result, w) := finalize_and_extend ctx pcr rname w in
                Some (Returned result, w)
            end
        end
  | _, _ => Some (Returned TPM_E_INVALID_ARG, w)
  end.

End Tspi.

(** ** Example platforms and collaborators *)

(** A TPM 1.2 build and a TPM 2.0 build; the chunk size is kept small so that
    a ten-byte region takes three reads. *)
Definition tpm1_board : config := {|
  CONFIG_TPM1 := true;
  CONFIG_TPM2 := false;
  CONFIG_TPM_DEACTIVATE := false;
  CONFIG_TPM_STARTUP_IGNORE_POSTINIT := false;
  CONFIG_VBOOT_MEASURED_BOOT := true;
  TPM_PCR_MAX_LEN := 64;
  HASH_DATA_CHUNK_SIZE := 4;
  TPM_ALG_SHA1 := 4;
  TPM_ALG_SHA256 := 11;
  TPM_ALG_SHA512 := 13;
  POST_TPM_FAILURE := 237
|}.

Definition tpm2_board : config := {|
  CONFIG_TPM1 := false;
  CONFIG_TPM2 := true;
  CONFIG_TPM_DEACTIVATE := false;
  CONFIG_TPM_STARTUP_IGNORE_POSTINIT := true;
  CONFIG_VBOOT_MEASURED_BOOT := true;
  TPM_PCR_MAX_LEN := 64;
  HASH_DATA_CHUNK_SIZE := 4;
  TPM_ALG_SHA1 := 4;
  TPM_ALG_SHA256 := 11;
  TPM_ALG_SHA512 := 13;
  POST_TPM_FAILURE := 237
|}.

Definition sample_digest_size (alg : vb2_hash_algorithm) : Z :=
  match alg with
  | VB2_HASH_SHA1 => 20
  | VB2_HASH_SHA256 => 32
  | VB2_HASH_SHA512 => 64
  | VB2_HASH_OTHER _ => 0
  end.

(** Collaborators whose answers do not depend on the history: [reply] is the
    transport, [flags] what [tlcl_get_flags] reports, [bad_read] the offsets
    at which the region cannot be read.  The stand-in digest is the data
    itself, which makes the hashed bytes visible in the trace. *)
Definition scripted (reply : call -> tpm_status) (flags : Z * Z)
    (bad_read : Z -> bool) : collaborators := {|
  tlcl_reply := fun _ c => reply c;
  tlcl_flags := fun _ => flags;
  rdev_reply := fun _ offset _ => bad_read offset;
  vb2_reply := fun _ _ => false;
  vb2_digest_size := sample_digest_size;
  vb2_hash := fun _ data => data
|}.

Definition cooperative : collaborators :=
  scripted (fun _ => TPM_SUCCESS) (0, 0) (fun _ => false).

(** Collaborators for a region whose chunk at offset 4 cannot be read. *)
Definition bad_at_4 : collaborators :=
  scripted (fun _ => TPM_SUCCESS) (0, 0) (fun offset => offset =? 4).

(** A transport on which [tlcl_set_enable] fails. *)
Definition enable_refused (c : call) : tpm_status :=
  match c with
  | Tlcl_set_enable => TPM_E_DEVICE 1
  | _ => TPM_SUCCESS
  end.

(** A region of [size] bytes whose byte at offset [i] is [i] (mod 256). *)
Definition counting_region (size : Z) : region_device := {|
  region_device_sz := size;
  rdev_byte := fun i =>
    match Byte.of_N (Z.to_N (i mod 256)) with
    | Some b => b
    | None => Byte.x00
    end
|}.

(** ** Classifying calls *)

(** Commands that change the enable / activation state of the device. *)
Definition state_changing (c : call) : bool :=
  match c with
  | Tlcl_set_enable | Tlcl_set_deactivated _ | Tlcl_force_clear => true
  | _ => false
  end.

Definition is_toggle (c : call) : bool :=
  match c with
  | Tlcl_set_deactivated _ => true
  | _ => false
  end.

(** Calls of the cold-boot path of [tpm_setup]: startup, physical presence
    and its remediation, and everything the reconciler issues. *)
Definition cold_boot_call (c : call) : bool :=
  match c with
  | Tlcl_startup
  | Tlcl_assert_physical_presence
  | Tlcl_physical_presence_cmd_enable
  | Tlcl_get_flags
  | Tlcl_set_enable
  | Tlcl_set_deactivated _ => true
  | _ => false
  end.

Definition is_extend (c : call) : bool :=
  match c with
  | Tlcl_extend _ _ _ _ => true
  | _ => false
  end.

Definition is_read (c : call) : bool :=
  match c with
  | Rdev_readat _ _ => true
  | _ => false
  end.

Definition is_finalize (c : call) : bool :=
  match c with
  | Vb2_digest_finalize _ => true
  | _ => false
  end.

Definition is_post_code (c : call) : bool :=
  match c with
  | Post_code _ => true
  | _ => false
  end.

Definition is_log_entry (c : call) : bool :=
  match c with
  | Tcpa_log_add_table_entry _ _ _ _ _ => true
  | _ => false
  end.

(** The three commands of the reconciler. *)
Definition reconciler_call (c : call) : bool :=
  match c with
  | Tlcl_get_flags | Tlcl_set_enable | Tlcl_set_deactivated _ => true
  | _ => false
  end.

Definition is_set_enable (c : call) : bool :=
  match c with
  | Tlcl_set_enable => true
  | _ => false
  end.

(** The physical-presence assertion and the command that enables it. *)
Definition is_assert_presence (c : call) : bool :=
  match c with
  | Tlcl_assert_physical_presence => true
  | _ => false
  end.

Definition is_presence_cmd_enable (c : call) : bool :=
  match c with
  | Tlcl_physical_presence_cmd_enable => true
  | _ => false
  end.

(** A read that stays inside a region of [size] bytes and inside a buffer
    of [chunk] bytes; every other call passes. *)
Definition read_within (size chunk : Z) (c : call) : Prop :=
  match c with
  | Rdev_readat offset len =>
      0 <= offset < size /\ len <= chunk /\ offset + len <= size
  | _ => True
  end.

(** The failure post code [tpm_setup_epilogue] sends for [result]. *)
Definition failure_signal (cfg : config) (result : tpm_status) : list call :=
  if failed result then [Post_code (POST_TPM_FAILURE cfg)] else [].

(** A transport that refuses one command with status [result] and accepts
    every other. *)
Definition refusing (bad : call -> bool) (result : tpm_status) (c : call)
    : tpm_status :=
  if bad c then result else TPM_SUCCESS.

(** A transport that answers the startup command with the invalid
    post-init status, as after a startup issued by earlier firmware. *)
Definition already_started (c : call) : tpm_status :=
  match c with
  | Tlcl_startup => TPM_E_INVALID_POSTINIT
  | _ => TPM_SUCCESS
  end.

(** A transport on which the first physical-presence assertion fails: the
    assertion is refused until the command enabling it has been issued. *)
Definition presence_locked : collaborators := {|
  tlcl_reply := fun history c =>
    match c with
    | Tlcl_assert_physical_presence =>
        if existsb is_presence_cmd_enable history then TPM_SUCCESS
        else TPM_E_DEVICE 3
    | _ => TPM_SUCCESS
    end;
  tlcl_flags := fun _ => (0, 0);
  rdev_reply := fun _ _ _ => false;
  vb2_reply := fun _ _ => false;
  vb2_digest_size := sample_digest_size;
  vb2_hash := fun _ data => data
|}.

(** Lines 154-178 of [tpm_setup]: the physical-presence assertion with its
    one remediation, and what follows it. *)
Definition setup_presence (cfg : config) (env : collaborators) : M tpm_status :=
  result <- tlcl_assert_physical_presence env ;;
  if failed result then
    result <- tlcl_physical_presence_cmd_enable env ;;
    if failed result then
      printk BIOS_ERR "TPM: Can't enable physical presence command.\n" ;;
      tpm_setup_epilogue cfg result
    else
      result <- tlcl_assert_physical_presence env ;;
      if failed result then
        printk BIOS_ERR "TPM: Can't assert physical presence.\n" ;;
        tpm_setup_epilogue cfg result
      else
        tpm_setup_finish cfg env result
  else
    tpm_setup_finish cfg env result.

(** Lines 143-178 of [tpm_setup]: the cold-boot path. *)
Definition setup_cold_boot (cfg : config) (env : collaborators) : M tpm_status :=
  result <- tlcl_startup env ;;
  result <- ignore_postinit cfg result ;;
  if failed result then
    printk BIOS_ERR "TPM: Can't run startup command.\n" ;;
    tpm_setup_epilogue cfg result
  else
    setup_presence cfg env.

(** The startup statuses lines 144-149 let pass: success, and the invalid
    post-init status when the configuration tolerates it. *)
Definition startup_accepted (cfg : config) (result : tpm_status) : bool :=
  match result with
  | TPM_SUCCESS => true
  | TPM_E_INVALID_POSTINIT => CONFIG_TPM_STARTUP_IGNORE_POSTINIT cfg
  | _ => false
  end.

(** ** Read plans *)

(** A plan is the list of (offset, length) pairs of the reads of one
    measurement.  [contiguous offset plan]: the first read starts at
    [offset], every read is at least one byte long and starts where the one
    before it ended - so no two reads overlap and none leaves a gap. *)
Fixpoint contiguous (offset : Z) (plan : list (Z * Z)) : Prop :=
  match plan with
  | [] => True
  | (o, l) :: rest => o = offset /\ 0 < l /\ contiguous (o + l) rest
  end.

Definition total_length (plan : list (Z * Z)) : Z :=
  fold_right (fun r acc => snd r + acc) 0 plan.

(** The bytes a plan reads, in order. *)
Definition plan_bytes (rdev : region_device) (plan : list (Z * Z))
    : list Byte.byte :=
  flat_map (fun r => rdev_bytes rdev (fst r) (Z.to_nat (snd r))) plan.

(** The calls of a plan carried out without failure: each read followed by
    the hash extension that absorbs what was read. *)
Definition read_and_hash (rdev : region_device) (plan : list (Z * Z))
    : list call :=
  flat_map (fun r =>
              [Rdev_readat (fst r) (snd r);
               Vb2_digest_extend (rdev_bytes rdev (fst r) (Z.to_nat (snd r)))
                 (snd r)])
           plan.

(** The offset the loop has reached after the chunks of [plan], having
    started at [offset]. *)
Fixpoint plan_end (offset : Z) (plan : list (Z * Z)) : Z :=
  match plan with
  | [] => offset
  | (o, l) :: rest => plan_end (next_offset o l) rest
  end.

(** The loop, started at [offset] after the calls of [history], goes
    through the chunks of [plan] without failure: each entry is the chunk
    the loop asks for at the offset it has reached, and both the read and
    the hash extension of that chunk succeed. *)
Fixpoint chunks_hashed (cfg : config) (env : collaborators)
    (rdev : region_device) (history : list call) (offset : Z)
    (plan : list (Z * Z)) : Prop :=
  match plan with
  | [] => True
  | (o, l) :: rest =>
      o = offset /\
      offset < region_device_sz rdev /\
      l = chunk_len cfg rdev offset /\
      rdev_reply env history o l = false /\
      vb2_reply env (history ++ [Rdev_readat o l])
        (Vb2_digest_extend (rdev_bytes rdev o (Z.to_nat l)) l) = false /\
      chunks_hashed cfg env rdev
        (history ++ [Rdev_readat o l;
                     Vb2_digest_extend (rdev_bytes rdev o (Z.to_nat l)) l])
        (next_offset o l) rest
  end.

(** Whether some read among [issued] came back with an error, [history]
    being the calls that preceded [issued]. *)
Fixpoint read_failed (env : collaborators) (history issued : list call) : bool :=
  match issued with
  | [] => false
  | c :: rest =>
      match c with
      | Rdev_readat offset len => rdev_reply env history offset len
      | _ => false
      end
      || read_failed env (history ++ [c]) rest
  end.

(** The identifier under which a measurement reaches the device: the one
    [select_algorithm] gives for [measure_hash_alg]. *)
Definition measure_algorithm (cfg : config) : Z :=
  if CONFIG_TPM2 cfg then
    if CONFIG_TPM1 cfg then TPM_ALG_SHA1 cfg else TPM_ALG_SHA256 cfg
  else 0.

(** The log entry that follows an extend command: written when the command
    succeeded and measured boot is configured. *)
Definition logged (cfg : config) (result : tpm_status) (name : option string)
    (pcr : Z) (digest_algo : vb2_hash_algorithm) (digest : list Byte.byte)
    (digest_len : Z) : list call :=
  if failed result then []
  else if CONFIG_VBOOT_MEASURED_BOOT cfg
       then [Tcpa_log_add_table_entry name pcr digest_algo digest digest_len]
       else [].

(** [tpm_extend_pcr] hands the digest to the device under the identifier
    [algorithm]: the extend command is the first call issued, the log entry
    follows it, and the status returned is the one the device gave. *)
Definition extends_with (cfg : config) (env : collaborators) (pcr : Z)
    (digest_algo : vb2_hash_algorithm) (digest : list Byte.byte)
    (digest_len : Z) (name : option string) (w : world) (algorithm : Z) : Prop :=
  let cmd := Tlcl_extend pcr algorithm digest digest_len in
  let result := tlcl_reply env (calls w) cmd in
  let run := tpm_extend_pcr cfg env pcr digest_algo (Some digest) digest_len
               name w in
  fst run = result /\
  calls (snd run)
  = calls w ++ cmd :: logged cfg result name pcr digest_algo digest digest_len /\
  console (snd run) = console w.

(** ** The PCR extension service *)

(** C5.  With an absent digest [tpm_extend_pcr] answers [TPM_E_IOERROR] and
    leaves the world as it found it: no call is issued, whatever the other
    arguments, the configuration and the collaborators are. *)
Theorem extend_pcr_null_digest :
  forall cfg env pcr digest_algo digest_len name w,
    tpm_extend_pcr cfg env pcr digest_algo None digest_len name w
    = (TPM_E_IOERROR, w).
Proof. reflexivity. Qed.

Lemma extend_pcr_issues :
  forall cfg env pcr digest_algo digest digest_len name w algorithm,
    select_algorithm cfg digest_algo = Some algorithm ->
    extends_with cfg env pcr digest_algo digest digest_len name w algorithm.
Proof.
  intros cfg env pcr digest_algo digest digest_len name w algorithm Hsel.
  unfold extends_with, logged, tpm_extend_pcr. rewrite Hsel.
  unfold bind, tlcl_extend, tlcl, ret. cbn [issue snd fst].
  destruct (tlcl_reply env (calls w)
              (Tlcl_extend pcr algorithm digest digest_len));
    cbn [failed fst snd calls console]; try (repeat split; reflexivity).
  destruct (CONFIG_VBOOT_MEASURED_BOOT cfg);
    cbn [tcpa_log_add_table_entry issue ret fst snd calls console];
    rewrite <- ?app_assoc; repeat split; reflexivity.
Qed.

(** C6 (amended).  On a TPM 2.0 build a present digest with a selector other
    than SHA-1, SHA-256 or SHA-512 is answered with [TPM_E_HASH_ERROR] and no
    call is issued; the three accepted selectors reach the device as
    [TPM_ALG_SHA1], [TPM_ALG_SHA256] and [TPM_ALG_SHA512].  Without
    [CONFIG(TPM2)] nothing is mapped or rejected: every selector, accepted
    or not, goes to the device with algorithm identifier 0. *)
Theorem extend_pcr_algorithm_gate :
  forall cfg env pcr digest digest_len name w,
    let sent := fun digest_algo =>
      extends_with cfg env pcr digest_algo digest digest_len name w in
    (CONFIG_TPM2 cfg = true ->
     (forall tag,
        tpm_extend_pcr cfg env pcr (VB2_HASH_OTHER tag) (Some digest)
          digest_len name w = (TPM_E_HASH_ERROR, w)) /\
     sent VB2_HASH_SHA1 (TPM_ALG_SHA1 cfg) /\
     sent VB2_HASH_SHA256 (TPM_ALG_SHA256 cfg) /\
     sent VB2_HASH_SHA512 (TPM_ALG_SHA512 cfg)) /\
    (CONFIG_TPM2 cfg = false -> forall digest_algo, sent digest_algo 0).
Proof.
  intros cfg env pcr digest digest_len name w sent. split; intro Hgen.
  - split.
    + intro tag. unfold tpm_extend_pcr, select_algorithm.
      rewrite Hgen. reflexivity.
    + split; [| split];
        apply extend_pcr_issues; unfold select_algorithm; rewrite Hgen;
        reflexivity.
  - intro digest_algo. apply extend_pcr_issues.
    unfold select_algorithm. rewrite Hgen. reflexivity.
Qed.

Lemma extend_pcr_algorithm_gate_witness :
  (forall tag,
     tpm_extend_pcr tpm2_board cooperative 0 (VB2_HASH_OTHER tag)
       (Some [Byte.x01]) 1 None initial_world
     = (TPM_E_HASH_ERROR, initial_world)) /\
  (forall digest_algo,
     extends_with tpm1_board cooperative 0 digest_algo [Byte.x01] 1 None
       initial_world 0).
Proof.
  split.
  - apply (extend_pcr_algorithm_gate tpm2_board cooperative 0 [Byte.x01] 1 None
             initial_world).
    reflexivity.
  - apply (extend_pcr_algorithm_gate tpm1_board cooperative 0 [Byte.x01] 1 None
             initial_world).
    reflexivity.
Defined.

(** C6 as first stated does not hold for every call: with an absent digest
    the NULL check of line 215 answers first, and an unrecognised selector
    on a TPM 2.0 build gets [TPM_E_IOERROR], not the hash error. *)
Lemma extend_pcr_null_digest_precedes_gate :
  let run :=
    tpm_extend_pcr tpm2_board cooperative 0 (VB2_HASH_OTHER 0) None 0 None
      initial_world in
  CONFIG_TPM2 tpm2_board = true /\
  fst run = TPM_E_IOERROR /\
  fst run <> TPM_E_HASH_ERROR.
Proof. split; [reflexivity | split; [reflexivity | discriminate]]. Qed.

(** ** The state reconciler *)

(** The reconciler once the flags are in: what [tpm1_invoke_state_machine]
    does after a successful [tlcl_get_flags] that reported a device which is
    not disabled. *)
Lemma reconciler_enabled_device :
  forall cfg env w disabled deactivated,
    tlcl_reply env (calls w) Tlcl_get_flags = TPM_SUCCESS ->
    tlcl_flags env (calls w) = (disabled, deactivated) ->
    nonzero disabled = false ->
    tpm1_invoke_state_machine cfg env w
    = toggle_deactivated cfg env deactivated TPM_SUCCESS
        {| calls := calls w ++ [Tlcl_get_flags]; console := console w |}.
Proof.
  intros cfg env w disabled deactivated Hget Hflags Hdis.
  unfold tpm1_invoke_state_machine, bind, tlcl_get_flags.
  rewrite Hflags, Hget. cbn [failed issue snd]. rewrite Hdis. reflexivity.
Qed.

Lemma failed_false :
  forall result, failed result = false -> result = TPM_SUCCESS.
Proof. intros [] H; try discriminate H; reflexivity. Qed.

(** The same for a disabled device: [tlcl_set_enable] is issued, and its
    failure ends the reconciler. *)
Lemma reconciler_disabled_device :
  forall cfg env w disabled deactivated,
    tlcl_reply env (calls w) Tlcl_get_flags = TPM_SUCCESS ->
    tlcl_flags env (calls w) = (disabled, deactivated) ->
    nonzero disabled = true ->
    let enabled := tlcl_reply env (calls w ++ [Tlcl_get_flags]) Tlcl_set_enable in
    let w1 :=
      {| calls := (calls w ++ [Tlcl_get_flags]) ++ [Tlcl_set_enable];
         console := console w
                    ++ [(BIOS_INFO, "TPM: is disabled. Enabling...\n"%string)] |} in
    tpm1_invoke_state_machine cfg env w
    = if failed enabled then
        (enabled,
         {| calls := calls w1;
            console := console w1
                       ++ [(BIOS_ERR, "TPM: Can't set enabled state.\n"%string)] |})
      else toggle_deactivated cfg env deactivated TPM_SUCCESS w1.
Proof.
  intros cfg env w disabled deactivated Hget Hflags Hdis enabled w1.
  unfold tpm1_invoke_state_machine, bind, tlcl_get_flags.
  rewrite Hflags, Hget. cbn [failed issue snd]. rewrite Hdis.
  unfold printk, tlcl_set_enable, tlcl. cbn [issue snd calls console].
  fold enabled. destruct (failed enabled) eqn:Hen.
  - reflexivity.
  - rewrite (failed_false _ Hen). reflexivity.
Qed.

(** When [deactivated] differs from the policy, lines 53-65 issue one
    toggle and never answer [TPM_SUCCESS]. *)
Lemma toggle_deactivated_differs :
  forall cfg env deactivated w,
    nonzero deactivated <> CONFIG_TPM_DEACTIVATE cfg ->
    let toggle := Tlcl_set_deactivated (lnot deactivated) in
    let run := toggle_deactivated cfg env deactivated TPM_SUCCESS w in
    calls (snd run) = calls w ++ [toggle] /\
    fst run = match tlcl_reply env (calls w) toggle with
              | TPM_SUCCESS => TPM_E_MUST_REBOOT
              | result => result
              end.
Proof.
  intros cfg env deactivated w Hdiff toggle run.
  subst run. unfold toggle_deactivated.
  destruct (Bool.eqb (nonzero deactivated) (CONFIG_TPM_DEACTIVATE cfg)) eqn:E.
  - apply Bool.eqb_prop in E. contradiction.
  - cbn [negb]. unfold bind, printk, tlcl_set_deactivated, tlcl, ret.
    cbn [issue snd calls console]. fold toggle.
    destruct (tlcl_reply env (calls w) toggle); split; reflexivity.
Qed.

(** When [deactivated] equals the policy, lines 53-67 do nothing. *)
Lemma toggle_deactivated_matches :
  forall cfg env deactivated result w,
    nonzero deactivated = CONFIG_TPM_DEACTIVATE cfg ->
    toggle_deactivated cfg env deactivated result w = (result, w).
Proof.
  intros cfg env deactivated result w Heq.
  unfold toggle_deactivated. rewrite Heq, Bool.eqb_reflx. reflexivity.
Qed.

(** C2 (amended).  After the flags were read, and the device enabled where
    it reported itself disabled, a [deactivated] flag that differs from
    [CONFIG(TPM_DEACTIVATE)] makes the reconciler issue exactly one
    [tlcl_set_deactivated], as its last call; when that command succeeds the
    reconciler returns [TPM_E_MUST_REBOOT], and in no case [TPM_SUCCESS]. *)
Theorem reconciler_toggles_once :
  forall cfg env w disabled deactivated,
    tlcl_reply env (calls w) Tlcl_get_flags = TPM_SUCCESS ->
    tlcl_flags env (calls w) = (disabled, deactivated) ->
    (nonzero disabled = true ->
     tlcl_reply env (calls w ++ [Tlcl_get_flags]) Tlcl_set_enable = TPM_SUCCESS) ->
    nonzero deactivated <> CONFIG_TPM_DEACTIVATE cfg ->
    let run := tpm1_invoke_state_machine cfg env w in
    let before :=
      Tlcl_get_flags :: (if nonzero disabled then [Tlcl_set_enable] else []) in
    let toggle := Tlcl_set_deactivated (lnot deactivated) in
    calls (snd run) = calls w ++ before ++ [toggle] /\
    filter is_toggle (before ++ [toggle]) = [toggle] /\
    (tlcl_reply env (calls w ++ before) toggle = TPM_SUCCESS ->
     fst run = TPM_E_MUST_REBOOT) /\
    fst run <> TPM_SUCCESS.
Proof.
  intros cfg env w disabled deactivated Hget Hflags Hen Hdiff run before toggle.
  subst run before.
  destruct (nonzero disabled) eqn:Hdis;
    [ rewrite (reconciler_disabled_device cfg env w disabled deactivated
                 Hget Hflags Hdis), (Hen eq_refl); cbn [failed]
    | rewrite (reconciler_enabled_device cfg env w disabled deactivated
                 Hget Hflags Hdis) ];
    match goal with
    | |- context [toggle_deactivated cfg env deactivated TPM_SUCCESS ?w1] =>
        destruct (toggle_deactivated_differs cfg env deactivated w1 Hdiff)
          as [Hcalls Hres]
    end;
    rewrite Hcalls, Hres; cbn [calls]; fold toggle;
    rewrite <- !app_assoc; cbn [app filter is_toggle];
    (split; [reflexivity | split; [reflexivity | split]]);
    try (intro Hok; rewrite Hok; reflexivity);
    match goal with
    | |- match ?reply with _ => _ end <> _ => destruct reply; discriminate
    end.
Qed.

Lemma reconciler_toggles_once_witness :
  let run :=
    tpm1_invoke_state_machine tpm1_board
      (scripted (fun _ => TPM_SUCCESS) (1, 1) (fun _ => false)) initial_world in
  calls (snd run)
  = [] ++ [Tlcl_get_flags; Tlcl_set_enable] ++ [Tlcl_set_deactivated 0] /\
  filter is_toggle ([Tlcl_get_flags; Tlcl_set_enable] ++ [Tlcl_set_deactivated 0])
  = [Tlcl_set_deactivated 0] /\
  (TPM_SUCCESS = TPM_SUCCESS -> fst run = TPM_E_MUST_REBOOT) /\
  fst run <> TPM_SUCCESS.
Proof.
  apply (reconciler_toggles_once tpm1_board
           (scripted (fun _ => TPM_SUCCESS) (1, 1) (fun _ => false))
           initial_world 1 1).
  - reflexivity.
  - reflexivity.
  - reflexivity.
  - discriminate.
Defined.

(** The enable step comes first: when the device refuses it the reconciler
    returns that status and the comparison is not reached. *)
Example reconciler_stops_when_enable_refused :
  let run :=
    tpm1_invoke_state_machine tpm1_board (scripted enable_refused (1, 1)
                                            (fun _ => false)) initial_world in
  fst run = TPM_E_DEVICE 1 /\
  calls (snd run) = [Tlcl_get_flags; Tlcl_set_enable].
Proof. split; reflexivity. Qed.

(** C2 as first stated fails on a disabled device that refuses the enable
    command: the flags are read, [deactivated] differs from the policy, and
    yet lines 47-50 return before the comparison, so no toggle is issued. *)
Lemma reconciler_refused_enable_no_toggle :
  let env := scripted enable_refused (1, 1) (fun _ => false) in
  let run := tpm1_invoke_state_machine tpm1_board env initial_world in
  tlcl_reply env (calls initial_world) Tlcl_get_flags = TPM_SUCCESS /\
  tlcl_flags env (calls initial_world) = (1, 1) /\
  nonzero 1 <> CONFIG_TPM_DEACTIVATE tpm1_board /\
  calls (snd run) = [Tlcl_get_flags; Tlcl_set_enable] /\
  ~ (List.length (filter is_toggle (calls (snd run))) = 1)%nat.
Proof.
  repeat split; try reflexivity; discriminate.
Qed.

(** C3 (amended).  After the flags were read, a [deactivated] flag that
    equals [CONFIG(TPM_DEACTIVATE)] makes the reconciler issue no toggle.
    For a device that is not disabled nothing follows [tlcl_get_flags] - no
    state-changing call at all - and the result is [TPM_SUCCESS]; for a
    disabled device the one call that follows is [tlcl_set_enable], whose
    status is the result. *)
Theorem reconciler_matching_policy :
  forall cfg env w disabled deactivated,
    tlcl_reply env (calls w) Tlcl_get_flags = TPM_SUCCESS ->
    tlcl_flags env (calls w) = (disabled, deactivated) ->
    nonzero deactivated = CONFIG_TPM_DEACTIVATE cfg ->
    let run := tpm1_invoke_state_machine cfg env w in
    exists issued,
      calls (snd run) = calls w ++ issued /\
      filter is_toggle issued = [] /\
      if nonzero disabled then
        issued = [Tlcl_get_flags; Tlcl_set_enable] /\
        fst run = tlcl_reply env (calls w ++ [Tlcl_get_flags]) Tlcl_set_enable
      else
        issued = [Tlcl_get_flags] /\
        filter state_changing issued = [] /\
        fst run = TPM_SUCCESS.
Proof.
  intros cfg env w disabled deactivated Hget Hflags Hmatch run. subst run.
  destruct (nonzero disabled) eqn:Hdis.
  - exists [Tlcl_get_flags; Tlcl_set_enable].
    rewrite (reconciler_disabled_device cfg env w disabled deactivated
               Hget Hflags Hdis).
    destruct (failed (tlcl_reply env (calls w ++ [Tlcl_get_flags])
                        Tlcl_set_enable)) eqn:Hen.
    + cbn [fst snd calls]. rewrite <- app_assoc. repeat split.
    + rewrite toggle_deactivated_matches by assumption.
      cbn [fst snd calls]. rewrite <- app_assoc.
      rewrite (failed_false _ Hen). repeat split.
  - exists [Tlcl_get_flags].
    rewrite (reconciler_enabled_device cfg env w disabled deactivated
               Hget Hflags Hdis).
    rewrite toggle_deactivated_matches by assumption.
    cbn [fst snd calls]. repeat split.
Qed.

Lemma reconciler_matching_policy_witness :
  exists issued,
    calls (snd (tpm1_invoke_state_machine tpm1_board cooperative initial_world))
    = [] ++ issued /\
    filter is_toggle issued = [] /\
    issued = [Tlcl_get_flags] /\
    filter state_changing issued = [] /\
    fst (tpm1_invoke_state_machine tpm1_board cooperative initial_world)
    = TPM_SUCCESS.
Proof.
  apply (reconciler_matching_policy tpm1_board cooperative initial_world 0 0);
    reflexivity.
Defined.

(** C3 as first stated fails on a disabled device: with [deactivated]
    already equal to the policy the reconciler still issues
    [tlcl_set_enable], a state-changing command. *)
Lemma reconciler_enables_disabled_device :
  let env := scripted (fun _ => TPM_SUCCESS) (1, 0) (fun _ => false) in
  let run := tpm1_invoke_state_machine tpm1_board env initial_world in
  tlcl_flags env (calls initial_world) = (1, 0) /\
  nonzero 0 = CONFIG_TPM_DEACTIVATE tpm1_board /\
  ~ (filter state_changing (calls (snd run)) = [] /\ fst run = TPM_SUCCESS).
Proof.
  split; [reflexivity | split; [reflexivity |]].
  intros [Hnone _]. discriminate Hnone.
Qed.

(** ** Setup *)

(** C4.  With a non-zero [s3flag], [tpm_setup] issues no call of the
    cold-boot path - no startup, no physical-presence assertion or
    remediation, nothing of the reconciler.  After a successful
    [tlcl_lib_init] the calls are [tlcl_lib_init], [tlcl_resume] and, when
    the resume failed, the failure post code; the status is the one of the
    resume helper. *)
Theorem setup_resume_path :
  forall cfg env s3flag w,
    s3flag <> 0 ->
    let run := tpm_setup cfg env s3flag w in
    let resumed := tlcl_reply env (calls w ++ [Tlcl_lib_init]) Tlcl_resume in
    exists issued,
      calls (snd run) = calls w ++ issued /\
      filter cold_boot_call issued = [] /\
      (tlcl_reply env (calls w) Tlcl_lib_init = TPM_SUCCESS ->
       issued = Tlcl_lib_init :: Tlcl_resume ::
                  match resumed with
                  | TPM_SUCCESS | TPM_E_INVALID_POSTINIT => []
                  | _ => [Post_code (POST_TPM_FAILURE cfg)]
                  end /\
       fst run = match resumed with
                 | TPM_E_INVALID_POSTINIT => TPM_SUCCESS
                 | _ => resumed
                 end).
Proof.
  intros cfg env s3flag w Hs3 run resumed. subst run.
  assert (Hnz : nonzero s3flag = true).
  { unfold nonzero. destruct (Z.eqb_spec s3flag 0); [contradiction | reflexivity]. }
  unfold tpm_setup, bind, tlcl_lib_init, tlcl. cbn [issue snd].
  destruct (tlcl_reply env (calls w) Tlcl_lib_init) eqn:Hinit; cbn [failed].
  2-8: (eexists; split;
        [ unfold printk, tpm_setup_epilogue, bind, post_code, ret;
          cbn [failed issue fst snd calls console];
          rewrite <- app_assoc; reflexivity
        | split; [reflexivity | intro H; discriminate H] ]).
  rewrite Hnz.
  unfold printk, tpm_setup_s3_helper, tlcl_resume, tlcl, bind.
  cbn [issue snd calls console]. fold resumed.
  destruct resumed;
    (eexists; split;
     [ unfold printk, tpm_setup_epilogue, bind, post_code, ret;
       cbn [failed issue fst snd calls console];
       rewrite <- ?app_assoc; reflexivity
     | split; [reflexivity | intros _; split; reflexivity] ]).
Qed.

Lemma setup_resume_path_witness :
  exists issued,
    calls (snd (tpm_setup tpm1_board cooperative 1 initial_world))
    = [] ++ issued /\
    filter cold_boot_call issued = [] /\
    (TPM_SUCCESS = TPM_SUCCESS ->
     issued = [Tlcl_lib_init; Tlcl_resume] /\
     fst (tpm_setup tpm1_board cooperative 1 initial_world) = TPM_SUCCESS).
Proof.
  apply (setup_resume_path tpm1_board cooperative 1 initial_world).
  discriminate.
Defined.

(** A cold boot on the same board, for comparison with the resume path. *)
Example setup_cold_boot_calls :
  calls (snd (tpm_setup tpm1_board cooperative 0 initial_world))
  = [Tlcl_lib_init; Tlcl_startup; Tlcl_assert_physical_presence;
     Tlcl_get_flags].
Proof. reflexivity. Qed.

(** ** Region measurement: the chunk loop *)

Lemma rdev_bytes_app :
  forall rdev n m offset,
    rdev_bytes rdev offset (n + m)
    = rdev_bytes rdev offset n ++ rdev_bytes rdev (offset + Z.of_nat n) m.
Proof.
  intros rdev n. induction n as [| n IH]; intros m offset.
  - cbn [Nat.add rdev_bytes app Z.of_nat]. now rewrite Z.add_0_r.
  - cbn [Nat.add rdev_bytes app]. rewrite IH. do 3 f_equal. lia.
Qed.

Lemma rdev_bytes_length :
  forall rdev n offset, List.length (rdev_bytes rdev offset n) = n.
Proof.
  intros rdev n. induction n as [| n IH]; intro offset;
    cbn [rdev_bytes List.length].
  - reflexivity.
  - now rewrite IH.
Qed.

Lemma read_failed_app :
  forall env a b history,
    read_failed env history (a ++ b)
    = read_failed env history a || read_failed env (history ++ a) b.
Proof.
  intros env a. induction a as [| c a IH]; intros b history.
  - cbn [app read_failed orb]. now rewrite app_nil_r.
  - cbn [app read_failed]. rewrite IH, <- app_assoc, orb_assoc. reflexivity.
Qed.

Section Chunk_loop.

Variable cfg : config.
Variable env : collaborators.
Variable rdev : region_device.

Let size := region_device_sz rdev.

(** One iteration, by cases on what the collaborators answer. *)

Lemma hash_chunks_done :
  forall fuel offset ctx w,
    size <= offset ->
    hash_chunks cfg env (S fuel) rdev offset ctx w = Some (inr ctx, w).
Proof.
  intros fuel offset ctx w Hge. cbn [hash_chunks].
  destruct (Z.ltb_spec offset (region_device_sz rdev)) as [Hlt | _].
  - unfold size in Hge. lia.
  - reflexivity.
Qed.

Lemma hash_chunks_read_fails :
  forall fuel offset ctx w,
    offset < size ->
    rdev_reply env (calls w) offset (chunk_len cfg rdev offset) = true ->
    hash_chunks cfg env (S fuel) rdev offset ctx w
    = Some (inl TPM_E_READ_FAILURE,
            {| calls := calls w ++ [Rdev_readat offset (chunk_len cfg rdev offset)];
               console := console w
                 ++ [(BIOS_ERR, "TPM: Not able to read region %s.\n"%string)] |}).
Proof.
  intros fuel offset ctx w Hlt Hbad. cbn [hash_chunks].
  destruct (Z.ltb_spec offset (region_device_sz rdev)) as [_ | Hge].
  - unfold rdev_readat. rewrite Hbad. reflexivity.
  - unfold size in Hlt. lia.
Qed.

Lemma hash_chunks_extend_fails :
  forall fuel offset ctx w,
    offset < size ->
    let len := chunk_len cfg rdev offset in
    let buf := rdev_bytes rdev offset (Z.to_nat len) in
    rdev_reply env (calls w) offset len = false ->
    vb2_reply env (calls w ++ [Rdev_readat offset len])
      (Vb2_digest_extend buf len) = true ->
    hash_chunks cfg env (S fuel) rdev offset ctx w
    = Some (inl TPM_E_HASH_ERROR,
            {| calls := calls w ++ [Rdev_readat offset len;
                                    Vb2_digest_extend buf len];
               console := console w
                 ++ [(BIOS_ERR, "TPM: Error extending hash.\n"%string)] |}).
Proof.
  intros fuel offset ctx w Hlt len buf Hread Hbad. cbn [hash_chunks].
  destruct (Z.ltb_spec offset (region_device_sz rdev)) as [_ | Hge].
  - unfold rdev_readat. fold len. rewrite Hread. fold buf.
    unfold vb2_digest_extend. cbn [issue snd calls console].
    rewrite Hbad. unfold printk. cbn [calls console].
    rewrite <- app_assoc. reflexivity.
  - unfold size in Hlt. lia.
Qed.

Lemma hash_chunks_next :
  forall fuel offset ctx w,
    offset < size ->
    let len := chunk_len cfg rdev offset in
    let buf := rdev_bytes rdev offset (Z.to_nat len) in
    rdev_reply env (calls w) offset len = false ->
    vb2_reply env (calls w ++ [Rdev_readat offset len])
      (Vb2_digest_extend buf len) = false ->
    hash_chunks cfg env (S fuel) rdev offset ctx w
    = hash_chunks cfg env fuel rdev (next_offset offset len)
        {| ctx_alg := ctx_alg ctx; ctx_data := ctx_data ctx ++ buf |}
        {| calls := calls w ++ [Rdev_readat offset len;
                                Vb2_digest_extend buf len];
           console := console w |}.
Proof.
  intros fuel offset ctx w Hlt len buf Hread Hext. cbn [hash_chunks].
  destruct (Z.ltb_spec offset (region_device_sz rdev)) as [_ | Hge].
  - unfold rdev_readat. fold len. rewrite Hread. fold buf.
    unfold vb2_digest_extend. cbn [issue snd calls console].
    rewrite Hext. rewrite <- app_assoc. reflexivity.
  - unfold size in Hlt. lia.
Qed.

(** Under the loop guard, and for a region that fits the [uint32_t] offset,
    a chunk has at least one byte and the offset moves forward without
    wrapping and without passing the end. *)
Lemma chunk_advances :
  forall offset,
    0 < HASH_DATA_CHUNK_SIZE cfg ->
    size < uint32_modulus ->
    0 <= offset < size ->
    let len := chunk_len cfg rdev offset in
    1 <= len <= size - offset /\
    len = Z.min (HASH_DATA_CHUNK_SIZE cfg) (size - offset) /\
    next_offset offset len = offset + len /\
    offset < next_offset offset len <= size.
Proof.
  intros offset Hchunk Hfit Hoff len. subst len.
  unfold chunk_len, next_offset. fold size.
  assert (Hlen : 1 <= Z.min (HASH_DATA_CHUNK_SIZE cfg) (size - offset)
                   <= size - offset) by lia.
  rewrite Z.mod_small by (unfold uint32_modulus in *; lia).
  repeat split; lia.
Qed.

(** The loop ends for a region that fits the offset variable, whatever the
    collaborators answer: [size - offset] bounds the iterations left. *)
Lemma hash_chunks_terminates :
  0 < HASH_DATA_CHUNK_SIZE cfg ->
  size < uint32_modulus ->
  forall n fuel offset ctx w,
    0 <= offset <= size ->
    (Z.to_nat (size - offset) <= n)%nat ->
    (n < fuel)%nat ->
    exists res, hash_chunks cfg env fuel rdev offset ctx w = Some res.
Proof.
  intros Hchunk Hfit n.
  induction n as [| n IH]; intros fuel offset ctx w Hoff Hn Hfuel;
    (destruct fuel as [| fuel]; [lia |]).
  - eexists. apply hash_chunks_done. lia.
  - destruct (Z.lt_ge_cases offset size) as [Hlt | Hge].
    2: { eexists. apply hash_chunks_done. exact Hge. }
    destruct (chunk_advances offset Hchunk Hfit (conj (proj1 Hoff) Hlt))
      as (Hlen & _ & Hnext & Hmove).
    destruct (rdev_reply env (calls w) offset (chunk_len cfg rdev offset))
      eqn:Hread.
    { eexists. apply hash_chunks_read_fails; assumption. }
    destruct (vb2_reply env
                (calls w ++ [Rdev_readat offset (chunk_len cfg rdev offset)])
                (Vb2_digest_extend
                   (rdev_bytes rdev offset
                      (Z.to_nat (chunk_len cfg rdev offset)))
                   (chunk_len cfg rdev offset))) eqn:Hext.
    { eexists. apply hash_chunks_extend_fails; assumption. }
    rewrite hash_chunks_next by assumption.
    apply IH; lia.
Qed.


(** What the loop leaves in the trace, for any collaborators and any fuel
    that sufficed: reads and hash extensions only, and a read that came back
    with an error is the last call, answered with [TPM_E_READ_FAILURE]. *)
Lemma hash_chunks_trace :
  forall fuel offset ctx w res w',
    hash_chunks cfg env fuel rdev offset ctx w = Some (res, w') ->
    exists issued,
      calls w' = calls w ++ issued /\
      filter is_finalize issued = [] /\
      filter is_extend issued = [] /\
      match res with
      | inl TPM_E_READ_FAILURE =>
          exists before offset' len,
            issued = before ++ [Rdev_readat offset' len] /\
            read_failed env (calls w) before = false /\
            rdev_reply env (calls w ++ before) offset' len = true
      | _ => read_failed env (calls w) issued = false
      end.
Proof.
  induction fuel as [| fuel IH]; intros offset ctx w res w' Hrun.
  - discriminate Hrun.
  - destruct (Z.lt_ge_cases offset size) as [Hlt | Hge].
    2: { rewrite hash_chunks_done in Hrun by exact Hge.
         injection Hrun as <- <-. exists [].
         rewrite app_nil_r. repeat split. }
    set (len := chunk_len cfg rdev offset).
    set (buf := rdev_bytes rdev offset (Z.to_nat len)).
    destruct (rdev_reply env (calls w) offset len) eqn:Hread.
    { rewrite hash_chunks_read_fails in Hrun by assumption.
      injection Hrun as <- <-. exists [Rdev_readat offset len].
      cbn [calls filter is_finalize is_extend]. repeat split.
      exists [], offset, len. rewrite app_nil_r. repeat split. exact Hread. }
    destruct (vb2_reply env (calls w ++ [Rdev_readat offset len])
                (Vb2_digest_extend buf len)) eqn:Hext.
    { rewrite hash_chunks_extend_fails in Hrun by assumption.
      injection Hrun as <- <-.
      exists [Rdev_readat offset len; Vb2_digest_extend buf len].
      cbn [calls filter is_finalize is_extend read_failed orb].
      rewrite Hread. repeat split. }
    rewrite hash_chunks_next in Hrun by assumption.
    apply IH in Hrun. cbn [calls] in Hrun.
    destruct Hrun as (issued & Hcalls & Hfin & Hext' & Hres).
    exists (Rdev_readat offset len :: Vb2_digest_extend buf len :: issued).
    rewrite Hcalls, <- app_assoc.
    cbn [app filter is_finalize is_extend].
    split; [reflexivity | split; [exact Hfin | split; [exact Hext' |]]].
    assert (Hscan : forall l,
               read_failed env (calls w)
                 (Rdev_readat offset len :: Vb2_digest_extend buf len :: l)
               = read_failed env
                   (calls w ++ [Rdev_readat offset len; Vb2_digest_extend buf len])
                   l).
    { intro l. cbn [read_failed]. fold len. rewrite Hread, <- app_assoc.
      reflexivity. }
    destruct res as [[] |]; try (rewrite Hscan; exact Hres).
    destruct Hres as (before & offset' & len' & Hsplit & Hclean & Hbad).
    exists (Rdev_readat offset len :: Vb2_digest_extend buf len :: before),
      offset', len'.
    rewrite Hscan. subst issued.
    split; [reflexivity | split; [exact Hclean |]].
    rewrite <- Hbad, <- app_assoc. reflexivity.
Qed.

End Chunk_loop.

(** ** Region measurement: the whole function *)

Lemma select_measure_algorithm :
  forall cfg,
    select_algorithm cfg (measure_hash_alg cfg) = Some (measure_algorithm cfg).
Proof.
  intro cfg. unfold select_algorithm, measure_hash_alg, measure_algorithm.
  destruct (CONFIG_TPM2 cfg), (CONFIG_TPM1 cfg); reflexivity.
Qed.

Lemma read_failed_no_read :
  forall env issued history,
    filter is_read issued = [] -> read_failed env history issued = false.
Proof.
  intros env issued.
  induction issued as [| c rest IH]; intros history Hnone; [reflexivity |].
  cbn [read_failed]. destruct c; cbn [filter is_read] in Hnone;
    try discriminate Hnone; cbn [orb]; apply IH; exact Hnone.
Qed.

Lemma logged_no_read_no_extend :
  forall cfg result name pcr digest_algo digest digest_len,
    let entry := logged cfg result name pcr digest_algo digest digest_len in
    filter is_read entry = [] /\ filter is_extend entry = [] /\
    filter is_finalize entry = [].
Proof.
  intros. subst entry. unfold logged.
  destruct (failed result), (CONFIG_VBOOT_MEASURED_BOOT cfg);
    repeat split.
Qed.

Lemma read_and_hash_reads :
  forall rdev plan,
    filter is_read (read_and_hash rdev plan)
    = map (fun r => Rdev_readat (fst r) (snd r)) plan /\
    filter is_extend (read_and_hash rdev plan) = [].
Proof.
  intros rdev plan. induction plan as [| r plan [IHr IHe]].
  - split; reflexivity.
  - cbn [read_and_hash flat_map app filter is_read is_extend map].
    fold (read_and_hash rdev plan). rewrite IHr, IHe. split; reflexivity.
Qed.

(** [tpm_extend_pcr] never reads the region. *)
Lemma extend_pcr_trace :
  forall cfg env pcr digest_algo digest digest_len name w,
    exists issued,
      calls (snd (tpm_extend_pcr cfg env pcr digest_algo digest digest_len
                    name w))
      = calls w ++ issued /\
      filter is_read issued = [].
Proof.
  intros cfg env pcr digest_algo digest digest_len name w.
  destruct digest as [digest |].
  2: { exists []. rewrite app_nil_r. split; reflexivity. }
  destruct (select_algorithm cfg digest_algo) as [algorithm |] eqn:Hsel.
  - destruct (extend_pcr_issues cfg env pcr digest_algo digest digest_len name
                w algorithm Hsel) as (_ & Hcalls & _).
    eexists. split; [exact Hcalls |].
    cbn [filter is_read]. apply logged_no_read_no_extend.
  - exists []. unfold tpm_extend_pcr. rewrite Hsel, app_nil_r.
    split; reflexivity.
Qed.

Section Measure.

Variable cfg : config.
Variable env : collaborators.

Let hash_alg := measure_hash_alg cfg.
Let digest_len := measure_digest_len cfg env.

(** Lines 256-274: with both pointers present, the library initialised, the
    assertion holding and the hash context set up, the function is its loop
    followed by lines 292-302. *)
Lemma measure_region_enters_loop :
  forall fuel rdev pcr rname w,
    tlcl_reply env (calls w) Tlcl_lib_init = TPM_SUCCESS ->
    digest_len <= TPM_PCR_MAX_LEN cfg ->
    vb2_reply env (calls w ++ [Tlcl_lib_init]) (Vb2_digest_init hash_alg) = false ->
    tpm_measure_region cfg env fuel (Some rdev) pcr (Some rname) w
    = match hash_chunks cfg env fuel rdev 0
              {| ctx_alg := hash_alg; ctx_data := [] |}
              {| calls := calls w ++ [Tlcl_lib_init; Vb2_digest_init hash_alg];
                 console := console w |} with
      | None => None
      | Some (inl result, w1) => Some (Returned result, w1)
      | Some (inr ctx, w1) =>
          let (result, w2) := finalize_and_extend cfg env ctx pcr (Some rname) w1 in
          Some (Returned result, w2)
      end.
Proof.
  intros fuel rdev pcr rname w Hinit Hassert Hctx.
  unfold tpm_measure_region, tlcl_lib_init, tlcl. cbn [issue snd].
  rewrite Hinit. cbn [failed]. fold digest_len.
  destruct (Z.ltb_spec (TPM_PCR_MAX_LEN cfg) digest_len) as [Hlt | _]; [lia |].
  unfold vb2_digest_init. cbn [issue snd calls console]. fold hash_alg.
  rewrite Hctx, <- app_assoc. reflexivity.
Qed.

(** Lines 292-302 when the hash can be finalized: one finalize, one extend
    command carrying the digest of what the context absorbed, then the log
    entry. *)
Lemma finalize_and_extend_ok :
  forall ctx pcr rname w,
    ctx_alg ctx = hash_alg ->
    vb2_reply env (calls w) (Vb2_digest_finalize digest_len) = false ->
    let digest := vb2_hash env hash_alg (ctx_data ctx) in
    let cmd := Tlcl_extend pcr (measure_algorithm cfg) digest digest_len in
    let result := tlcl_reply env (calls w ++ [Vb2_digest_finalize digest_len]) cmd in
    let run := finalize_and_extend cfg env ctx pcr rname w in
    fst run = result /\
    calls (snd run)
    = calls w ++ [Vb2_digest_finalize digest_len; cmd]
        ++ logged cfg result rname pcr hash_alg digest digest_len.
Proof.
  intros ctx pcr rname w Halg Hfin digest cmd result run. subst run.
  unfold finalize_and_extend, bind, vb2_digest_finalize.
  fold digest_len. rewrite Hfin, Halg. fold digest. cbn [issue snd].
  fold hash_alg.
  match goal with
  | |- context [tpm_extend_pcr cfg env pcr hash_alg (Some digest) digest_len
                  rname ?w1] =>
      destruct (extend_pcr_issues cfg env pcr hash_alg digest digest_len rname
                  w1 (measure_algorithm cfg) (select_measure_algorithm cfg))
        as (Hres & Hcalls & _);
      destruct (tpm_extend_pcr cfg env pcr hash_alg (Some digest) digest_len
                  rname w1) as [r w2]
  end.
  cbn [fst snd calls] in Hres, Hcalls. fold cmd in Hres, Hcalls.
  fold result in Hres, Hcalls. subst r.
  destruct (failed result) eqn:Hfail; unfold printk, ret; cbn [fst snd calls].
  - rewrite Hcalls, <- app_assoc. split; reflexivity.
  - rewrite Hcalls, <- app_assoc. split; [| reflexivity].
    symmetry. apply failed_false. exact Hfail.
Qed.

(** Lines 292-302 for any collaborators: a finalize, then calls among which
    there is no read. *)
Lemma finalize_and_extend_trace :
  forall ctx pcr rname w,
    exists issued,
      calls (snd (finalize_and_extend cfg env ctx pcr rname w))
      = calls w ++ Vb2_digest_finalize digest_len :: issued /\
      filter is_read issued = [].
Proof.
  intros ctx pcr rname w.
  unfold finalize_and_extend, bind, vb2_digest_finalize. fold digest_len.
  destruct (vb2_reply env (calls w) (Vb2_digest_finalize digest_len)).
  { exists []. split; reflexivity. }
  cbn [issue snd].
  match goal with
  | |- context [tpm_extend_pcr cfg env pcr ?alg ?d ?len rname ?w1] =>
      destruct (extend_pcr_trace cfg env pcr alg d len rname w1)
        as (issued & Hcalls & Hnone);
      destruct (tpm_extend_pcr cfg env pcr alg d len rname w1) as [r w2]
  end.
  cbn [snd calls] in Hcalls. exists issued.
  destruct (failed r); unfold printk, ret; cbn [fst snd calls];
    rewrite Hcalls, <- app_assoc; split; (reflexivity || exact Hnone).
Qed.

End Measure.



(** The run of the specification's example: ten bytes in chunks of four. *)
Example measure_ten_bytes_by_four :
  option_map (fun r => (fst r, calls (snd r)))
    (tpm_measure_region tpm1_board cooperative 4 (Some (counting_region 10)) 2
       (Some "COREBOOT"%string) initial_world)
  = Some (Returned TPM_SUCCESS,
          [Tlcl_lib_init;
           Vb2_digest_init VB2_HASH_SHA1;
           Rdev_readat 0 4;
           Vb2_digest_extend [Byte.x00; Byte.x01; Byte.x02; Byte.x03] 4;
           Rdev_readat 4 4;
           Vb2_digest_extend [Byte.x04; Byte.x05; Byte.x06; Byte.x07] 4;
           Rdev_readat 8 2;
           Vb2_digest_extend [Byte.x08; Byte.x09] 2;
           Vb2_digest_finalize 20;
           Tlcl_extend 2 0
             [Byte.x00; Byte.x01; Byte.x02; Byte.x03; Byte.x04; Byte.x05;
              Byte.x06; Byte.x07; Byte.x08; Byte.x09] 20;
           Tcpa_log_add_table_entry (Some "COREBOOT"%string) 2 VB2_HASH_SHA1
             [Byte.x00; Byte.x01; Byte.x02; Byte.x03; Byte.x04; Byte.x05;
              Byte.x06; Byte.x07; Byte.x08; Byte.x09] 20]).
Proof. vm_compute. reflexivity. Qed.



(** Every call of [tpm_measure_region] that returns has only added calls to
    the trace, and if one of the reads it issued came back with an error
    then that read is the last call, the result is [TPM_E_READ_FAILURE], and
    neither a finalize nor an extend command is among the calls. *)
Lemma measure_region_trace :
  forall cfg env fuel rdev pcr rname w out w',
    tpm_measure_region cfg env fuel rdev pcr rname w = Some (out, w') ->
    exists issued,
      calls w' = calls w ++ issued /\
      (read_failed env (calls w) issued = true ->
       out = Returned TPM_E_READ_FAILURE /\
       filter is_finalize issued = [] /\
       filter is_extend issued = [] /\
       exists before offset len,
         issued = before ++ [Rdev_readat offset len] /\
         read_failed env (calls w) before = false /\
         rdev_reply env (calls w ++ before) offset len = true).
Proof.
  intros cfg env fuel rdev pcr rname w out w' Hrun.
  assert (Hnone : forall l,
             read_failed env (calls w) l = false ->
             calls w' = calls w ++ l ->
             exists issued,
               calls w' = calls w ++ issued /\
               (read_failed env (calls w) issued = true ->
                out = Returned TPM_E_READ_FAILURE /\
                filter is_finalize issued = [] /\
                filter is_extend issued = [] /\
                exists before offset len,
                  issued = before ++ [Rdev_readat offset len] /\
                  read_failed env (calls w) before = false /\
                  rdev_reply env (calls w ++ before) offset len = true)).
  { intros l Hl Hcalls. exists l. split; [exact Hcalls |].
    intro Hbad. rewrite Hl in Hbad. discriminate Hbad. }
  destruct rdev as [rd |]; [destruct rname as [name |] |].
  2, 3: (cbn in Hrun; injection Hrun as <- <-; apply (Hnone []);
         [reflexivity | now rewrite app_nil_r]).
  unfold tpm_measure_region, tlcl_lib_init, tlcl in Hrun.
  cbn [issue snd] in Hrun.
  destruct (failed (tlcl_reply env (calls w) Tlcl_lib_init)).
  { cbn [printk] in Hrun. injection Hrun as <- <-.
    apply (Hnone [Tlcl_lib_init]); reflexivity. }
  destruct (TPM_PCR_MAX_LEN cfg <? measure_digest_len cfg env).
  { injection Hrun as <- <-. apply (Hnone [Tlcl_lib_init]); reflexivity. }
  unfold vb2_digest_init in Hrun. cbn [issue snd calls console] in Hrun.
  destruct (vb2_reply env (calls w ++ [Tlcl_lib_init])
              (Vb2_digest_init (measure_hash_alg cfg))).
  { cbn [printk] in Hrun. injection Hrun as <- <-.
    apply (Hnone [Tlcl_lib_init; Vb2_digest_init (measure_hash_alg cfg)]);
      [reflexivity | cbn [calls]; now rewrite <- app_assoc]. }
  match type of Hrun with
  | match ?loop with _ => _ end = _ =>
      destruct loop as [[[result | ctx] w1] |] eqn:Hloop
  end; [| | discriminate Hrun];
    apply hash_chunks_trace in Hloop;
    destruct Hloop as (issued & Hcalls & Hfin & Hext & Hres);
    cbn [calls] in Hcalls, Hres;
    rewrite <- app_assoc in Hres; cbn [app] in Hres.
  - injection Hrun as <- <-.
    exists (Tlcl_lib_init :: Vb2_digest_init (measure_hash_alg cfg) :: issued).
    split; [rewrite Hcalls, <- !app_assoc; reflexivity |].
    cbn [read_failed orb filter is_finalize is_extend].
    rewrite <- app_assoc. cbn [app].
    intro Hbad.
    destruct result; try (rewrite Hres in Hbad; discriminate Hbad).
    destruct Hres as (before & offset & len & Hsplit & Hclean & Hreply).
    repeat (split; [reflexivity || assumption |]).
    exists (Tlcl_lib_init :: Vb2_digest_init (measure_hash_alg cfg) :: before),
      offset, len.
    subst issued. split; [reflexivity |].
    cbn [read_failed orb]. rewrite <- app_assoc. cbn [app].
    split; [exact Hclean |].
    rewrite <- Hreply, <- !app_assoc. reflexivity.
  - destruct (finalize_and_extend_trace cfg env ctx pcr (Some name) w1)
      as (tail & Htail & Hquiet).
    destruct (finalize_and_extend cfg env ctx pcr (Some name) w1)
      as [result w2].
    injection Hrun as <- <-. cbn [snd] in Htail.
    apply (Hnone (Tlcl_lib_init :: Vb2_digest_init (measure_hash_alg cfg)
                    :: issued
                    ++ Vb2_digest_finalize (measure_digest_len cfg env) :: tail)).
    + cbn [read_failed orb]. rewrite <- app_assoc. cbn [app].
      rewrite read_failed_app, Hres. cbn [orb read_failed].
      apply read_failed_no_read. exact Hquiet.
    + rewrite Htail, Hcalls, <- !app_assoc. reflexivity.
Qed.

(** A loop that hashed the chunks of a plan and whose next read fails
    returns [TPM_E_READ_FAILURE] right after that read. *)
Lemma hash_chunks_aborts_after :
  forall cfg env rdev plan fuel offset ctx w,
    chunks_hashed cfg env rdev (calls w) offset plan ->
    let failing := plan_end offset plan in
    failing < region_device_sz rdev ->
    rdev_reply env (calls w ++ read_and_hash rdev plan) failing
      (chunk_len cfg rdev failing) = true ->
    (List.length plan < fuel)%nat ->
    exists w',
      hash_chunks cfg env fuel rdev offset ctx w
      = Some (inl TPM_E_READ_FAILURE, w') /\
      calls w'
      = calls w ++ read_and_hash rdev plan
          ++ [Rdev_readat failing (chunk_len cfg rdev failing)].
Proof.
  intros cfg env rdev plan.
  induction plan as [| [o l] rest IH];
    intros fuel offset ctx w Hplan failing Hlt Hbad Hfuel;
    (destruct fuel as [| fuel]; [cbn [List.length] in Hfuel; lia |]);
    subst failing; cbn [plan_end read_and_hash flat_map] in *.
  - rewrite app_nil_r in Hbad.
    rewrite hash_chunks_read_fails by assumption.
    eexists. split; reflexivity.
  - destruct Hplan as (-> & Hin & -> & Hread & Hext & Hrest).
    cbn [fst snd] in *.
    rewrite hash_chunks_next by assumption.
    match goal with
    | |- context [hash_chunks cfg env fuel rdev ?off ?c ?w1] =>
        destruct (IH fuel off c w1) as (w' & Hrun & Hcalls)
    end.
    + exact Hrest.
    + exact Hlt.
    + cbn [calls]. rewrite <- app_assoc. exact Hbad.
    + cbn [List.length] in Hfuel. lia.
    + exists w'. split; [exact Hrun |].
      rewrite Hcalls. cbn [calls]. rewrite <- !app_assoc. reflexivity.
Qed.

(** C7 (amended).  A read that comes back with an error ends the
    measurement at once with [TPM_E_READ_FAILURE] (the status the source
    returns; it is not [TPM_E_IOERROR]).  When the loop has hashed the
    chunks of a plan and the read of the next chunk fails,
    [tpm_measure_region] returns [TPM_E_READ_FAILURE]; its trace ends with
    that read - no read at a later offset follows - and holds neither a
    finalize nor an extend command.  At the iteration whose read fails the
    loop returns after that single call; and in every call of
    [tpm_measure_region] that issued a failing read, that read is the last
    call of the trace. *)
Theorem measure_region_read_failure :
  forall cfg env,
    (forall fuel rdev pcr rname w plan,
       tlcl_reply env (calls w) Tlcl_lib_init = TPM_SUCCESS ->
       measure_digest_len cfg env <= TPM_PCR_MAX_LEN cfg ->
       vb2_reply env (calls w ++ [Tlcl_lib_init])
         (Vb2_digest_init (measure_hash_alg cfg)) = false ->
       let history :=
         calls w ++ [Tlcl_lib_init; Vb2_digest_init (measure_hash_alg cfg)] in
       chunks_hashed cfg env rdev history 0 plan ->
       let offset := plan_end 0 plan in
       let len := chunk_len cfg rdev offset in
       offset < region_device_sz rdev ->
       rdev_reply env (history ++ read_and_hash rdev plan) offset len = true ->
       (List.length plan < fuel)%nat ->
       exists w',
         tpm_measure_region cfg env fuel (Some rdev) pcr (Some rname) w
         = Some (Returned TPM_E_READ_FAILURE, w') /\
         calls w' = history ++ read_and_hash rdev plan ++ [Rdev_readat offset len] /\
         filter is_finalize
           (read_and_hash rdev plan ++ [Rdev_readat offset len]) = [] /\
         filter is_extend
           (read_and_hash rdev plan ++ [Rdev_readat offset len]) = []) /\
    (forall fuel rdev offset ctx w,
       offset < region_device_sz rdev ->
       rdev_reply env (calls w) offset (chunk_len cfg rdev offset) = true ->
       hash_chunks cfg env (S fuel) rdev offset ctx w
       = Some (inl TPM_E_READ_FAILURE,
               {| calls := calls w
                    ++ [Rdev_readat offset (chunk_len cfg rdev offset)];
                  console := console w
                    ++ [(BIOS_ERR,
                         "TPM: Not able to read region %s.\n"%string)] |})) /\
    (forall fuel rdev pcr rname w out w' issued,
       tpm_measure_region cfg env fuel rdev pcr rname w = Some (out, w') ->
       calls w' = calls w ++ issued ->
       read_failed env (calls w) issued = true ->
       out = Returned TPM_E_READ_FAILURE /\
       filter is_finalize issued = [] /\
       filter is_extend issued = [] /\
       exists before offset len,
         issued = before ++ [Rdev_readat offset len] /\
         read_failed env (calls w) before = false /\
         rdev_reply env (calls w ++ before) offset len = true).
Proof.
  intros cfg env. split; [| split].
  - intros fuel rdev pcr rname w plan Hinit Hassert Hctx history Hplan offset
      len Hlt Hbad Hfuel.
    subst len offset history.
    rewrite measure_region_enters_loop by assumption.
    match goal with
    | |- context [hash_chunks cfg env fuel rdev 0 ?c ?w0] =>
        destruct (hash_chunks_aborts_after cfg env rdev plan fuel 0 c w0
                    Hplan Hlt Hbad Hfuel) as (w' & Hrun & Hcalls)
    end.
    rewrite Hrun. exists w'. cbn [calls] in Hcalls.
    split; [reflexivity | split; [exact Hcalls |]].
    assert (Hquiet : forall l,
               filter is_finalize (read_and_hash rdev l) = [] /\
               filter is_extend (read_and_hash rdev l) = []).
    { induction l as [| r rest [IH1 IH2]]; [split; reflexivity |].
      cbn [read_and_hash flat_map app filter is_finalize is_extend].
      split; assumption. }
    destruct (Hquiet plan) as [Hq1 Hq2].
    rewrite !filter_app, Hq1, Hq2. split; reflexivity.
  - intros fuel rdev offset ctx w Hlt Hbad.
    apply hash_chunks_read_fails; assumption.
  - intros fuel rdev pcr rname w out w' issued Hrun Hcalls Hbad.
    destruct (measure_region_trace cfg env fuel rdev pcr rname w out w' Hrun)
      as (issued' & Hcalls' & Hspec).
    rewrite Hcalls in Hcalls'. apply app_inv_head in Hcalls'. subst issued'.
    apply Hspec. exact Hbad.
Qed.

Lemma measure_region_read_failure_witness :
  let rdev := counting_region 10 in
  let history := [] ++ [Tlcl_lib_init; Vb2_digest_init VB2_HASH_SHA1] in
  exists w',
    tpm_measure_region tpm1_board bad_at_4 2 (Some rdev) 2
      (Some "COREBOOT"%string) initial_world
    = Some (Returned TPM_E_READ_FAILURE, w') /\
    calls w' = history ++ read_and_hash rdev [(0, 4)] ++ [Rdev_readat 4 4] /\
    filter is_finalize (read_and_hash rdev [(0, 4)] ++ [Rdev_readat 4 4]) = [] /\
    filter is_extend (read_and_hash rdev [(0, 4)] ++ [Rdev_readat 4 4]) = [].
Proof.
  apply (proj1 (measure_region_read_failure tpm1_board bad_at_4)
           2%nat (counting_region 10) 2 "COREBOOT"%string initial_world
           [(0, 4)]).
  - reflexivity.
  - discriminate.
  - reflexivity.
  - cbn. repeat split; reflexivity.
  - reflexivity.
  - reflexivity.
  - cbn. lia.
Defined.

(** C7 as first stated names the wrong status: the failing read of the
    region above is answered with [TPM_E_READ_FAILURE], and that is not the
    IO error. *)
Lemma read_failure_is_not_io_error :
  let run :=
    option_map fst
      (tpm_measure_region tpm1_board bad_at_4 4 (Some (counting_region 10)) 2
         (Some "COREBOOT"%string) initial_world) in
  rdev_reply bad_at_4
    [Tlcl_lib_init; Vb2_digest_init VB2_HASH_SHA1; Rdev_readat 0 4;
     Vb2_digest_extend [Byte.x00; Byte.x01; Byte.x02; Byte.x03] 4] 4 4
  = true /\
  run = Some (Returned TPM_E_READ_FAILURE) /\
  run <> Some (Returned TPM_E_IOERROR).
Proof.
  split; [reflexivity | split; [vm_compute; reflexivity |]].
  vm_compute. discriminate.
Qed.

(** C8.  For a region of size zero [tpm_measure_region] issues no read: after
    the two initialisations it finalizes the hash of the empty input and
    issues the extend command once, with that digest. *)
Theorem measure_region_empty :
  forall cfg env rdev pcr rname w fuel,
    region_device_sz rdev = 0 ->
    tlcl_reply env (calls w) Tlcl_lib_init = TPM_SUCCESS ->
    measure_digest_len cfg env <= TPM_PCR_MAX_LEN cfg ->
    let hash_alg := measure_hash_alg cfg in
    let digest_len := measure_digest_len cfg env in
    vb2_reply env (calls w ++ [Tlcl_lib_init]) (Vb2_digest_init hash_alg)
    = false ->
    vb2_reply env (calls w ++ [Tlcl_lib_init; Vb2_digest_init hash_alg])
      (Vb2_digest_finalize digest_len) = false ->
    let digest := vb2_hash env hash_alg [] in
    let cmd := Tlcl_extend pcr (measure_algorithm cfg) digest digest_len in
    let result :=
      tlcl_reply env
        (calls w ++ [Tlcl_lib_init; Vb2_digest_init hash_alg;
                     Vb2_digest_finalize digest_len]) cmd in
    let issued :=
      [Tlcl_lib_init; Vb2_digest_init hash_alg;
       Vb2_digest_finalize digest_len; cmd]
        ++ logged cfg result (Some rname) pcr hash_alg digest digest_len in
    exists w',
      tpm_measure_region cfg env (S fuel) (Some rdev) pcr (Some rname) w
      = Some (Returned result, w') /\
      calls w' = calls w ++ issued /\
      filter is_read issued = [] /\
      filter is_extend issued = [cmd].
Proof.
  intros cfg env rdev pcr rname w fuel Hsize Hinit Hassert hash_alg digest_len
    Hctx Hfin digest cmd result issued.
  rewrite measure_region_enters_loop by assumption.
  rewrite hash_chunks_done by (rewrite Hsize; lia).
  fold hash_alg.
  match goal with
  | |- context [finalize_and_extend cfg env ?ctx pcr (Some rname) ?w1] =>
      destruct (finalize_and_extend_ok cfg env ctx pcr (Some rname) w1
                  eq_refl Hfin) as [Hres Hcalls];
      destruct (finalize_and_extend cfg env ctx pcr (Some rname) w1)
        as [result' w2]
  end.
  cbn [fst snd calls ctx_data] in Hres, Hcalls.
  fold hash_alg digest_len digest cmd in Hres, Hcalls.
  rewrite <- app_assoc in Hres, Hcalls. cbn [app] in Hres, Hcalls.
  fold result in Hres, Hcalls. subst result'.
  destruct (logged_no_read_no_extend cfg result (Some rname) pcr hash_alg digest
              digest_len) as (Hlr & Hle & _).
  exists w2. split; [reflexivity |]. split.
  { rewrite Hcalls. subst issued. rewrite <- !app_assoc. reflexivity. }
  subst issued. unfold cmd. cbn [app filter is_read is_extend].
  rewrite Hlr, Hle. split; reflexivity.
Qed.

Lemma measure_region_empty_witness :
  let digest := vb2_hash cooperative VB2_HASH_SHA256 [] in
  let cmd := Tlcl_extend 0 11 digest 32 in
  let issued :=
    [Tlcl_lib_init; Vb2_digest_init VB2_HASH_SHA256; Vb2_digest_finalize 32; cmd]
      ++ logged tpm2_board TPM_SUCCESS (Some "EMPTY"%string) 0 VB2_HASH_SHA256
           digest 32 in
  exists w',
    tpm_measure_region tpm2_board cooperative 1 (Some (counting_region 0)) 0
      (Some "EMPTY"%string) initial_world
    = Some (Returned TPM_SUCCESS, w') /\
    calls w' = [] ++ issued /\
    filter is_read issued = [] /\
    filter is_extend issued = [cmd].
Proof.
  apply (measure_region_empty tpm2_board cooperative (counting_region 0) 0
           "EMPTY"%string initial_world 0%nat).
  - reflexivity.
  - reflexivity.
  - discriminate.
  - reflexivity.
  - reflexivity.
Defined.

(** C9.  For a region whose size fits the 32-bit offset variable the chunk
    loop terminates, whatever the collaborators answer.  Under the guard
    [offset < size] the length [MIN(chunk size, size - offset)] is at least
    one byte, the addition [offset += len] does not wrap, and the new offset
    is strictly larger and not beyond the size; so a fuel above the size is
    never used up, by the loop or by [tpm_measure_region]. *)
Theorem chunk_loop_terminates :
  forall cfg env rdev,
    0 < HASH_DATA_CHUNK_SIZE cfg ->
    0 <= region_device_sz rdev < uint32_modulus ->
    let size := region_device_sz rdev in
    (forall offset,
       0 <= offset < size ->
       let len := chunk_len cfg rdev offset in
       1 <= len <= size - offset /\
       len = Z.min (HASH_DATA_CHUNK_SIZE cfg) (size - offset) /\
       next_offset offset len = offset + len /\
       offset < next_offset offset len <= size) /\
    (forall fuel ctx w,
       (Z.to_nat size < fuel)%nat ->
       exists res, hash_chunks cfg env fuel rdev 0 ctx w = Some res) /\
    (forall fuel pcr rname w,
       (Z.to_nat size < fuel)%nat ->
       exists res,
         tpm_measure_region cfg env fuel (Some rdev) pcr rname w = Some res).
Proof.
  intros cfg env rdev Hchunk Hfit size.
  assert (Hloop : forall fuel ctx w,
             (Z.to_nat size < fuel)%nat ->
             exists res, hash_chunks cfg env fuel rdev 0 ctx w = Some res).
  { intros fuel ctx w Hfuel.
    apply (hash_chunks_terminates cfg env rdev Hchunk (proj2 Hfit)
             (Z.to_nat size)); fold size; lia. }
  split; [| split; [exact Hloop |]].
  - intros offset Hoff.
    apply (chunk_advances cfg rdev offset Hchunk (proj2 Hfit) Hoff).
  - intros fuel pcr rname w Hfuel.
    destruct rname as [name |]; [| eexists; reflexivity].
    unfold tpm_measure_region.
    destruct (tlcl_lib_init env w) as [result w1].
    destruct (failed result); [eexists; reflexivity |].
    destruct (TPM_PCR_MAX_LEN cfg <? measure_digest_len cfg env);
      [eexists; reflexivity |].
    destruct (vb2_digest_init env (measure_hash_alg cfg) w1) as [[ctx |] w2];
      [| eexists; reflexivity].
    destruct (Hloop fuel ctx w2 Hfuel) as ([[result' | ctx'] w3] & Hres);
      rewrite Hres.
    + eexists; reflexivity.
    + destruct (finalize_and_extend cfg env ctx' pcr (Some name) w3).
      eexists; reflexivity.
Qed.

Lemma chunk_loop_terminates_witness :
  exists res,
    tpm_measure_region tpm1_board bad_at_4 11 (Some (counting_region 10)) 2
      (Some "COREBOOT"%string) initial_world
    = Some res.
Proof.
  apply (chunk_loop_terminates tpm1_board bad_at_4 (counting_region 10)).
  - reflexivity.
  - split; [discriminate | reflexivity].
  - vm_compute. lia.
Defined.

(** ** The assertion on the digest buffer *)

(** The digest length is a [uint8_t]. *)
Lemma measure_digest_len_range :
  forall cfg env, 0 <= measure_digest_len cfg env < uint8_modulus.
Proof.
  intros cfg env. unfold measure_digest_len.
  apply Z.mod_pos_bound. reflexivity.
Qed.

(** When [vb2_digest_size] answers with more than the buffer holds, the
    function stops at the assertion of line 270: the hash is neither
    initialised nor finalized. *)
Lemma measure_region_assertion_guard :
  forall cfg env fuel rdev pcr rname w,
    tlcl_reply env (calls w) Tlcl_lib_init = TPM_SUCCESS ->
    TPM_PCR_MAX_LEN cfg < measure_digest_len cfg env ->
    tpm_measure_region cfg env fuel (Some rdev) pcr (Some rname) w
    = Some (Assert_failed,
            {| calls := calls w ++ [Tlcl_lib_init]; console := console w |}).
Proof.
  intros cfg env fuel rdev pcr rname w Hinit Hbig.
  unfold tpm_measure_region, tlcl_lib_init, tlcl. cbn [issue snd].
  rewrite Hinit. cbn [failed].
  destruct (Z.ltb_spec (TPM_PCR_MAX_LEN cfg) (measure_digest_len cfg env));
    [reflexivity | lia].
Qed.

(** * Further properties of the same functions *)

(** ** Shapes of the traces *)

Lemma epilogue_forwards :
  forall cfg result w,
    fst (tpm_setup_epilogue cfg result w) = result /\
    calls (snd (tpm_setup_epilogue cfg result w))
    = calls w ++ failure_signal cfg result.
Proof.
  intros cfg result w.
  unfold tpm_setup_epilogue, failure_signal, bind, post_code, printk, ret.
  destruct (failed result); cbn [issue fst snd calls].
  - split; reflexivity.
  - rewrite app_nil_r. split; reflexivity.
Qed.

(** The reconciler issues [tlcl_get_flags], then at most one
    [tlcl_set_enable], then at most one [tlcl_set_deactivated]. *)
Lemma reconciler_shape :
  forall cfg env w,
    exists enable toggle,
      calls (snd (tpm1_invoke_state_machine cfg env w))
      = calls w ++ Tlcl_get_flags :: enable ++ toggle /\
      (enable = [] \/ enable = [Tlcl_set_enable]) /\
      (toggle = [] \/
       toggle = [Tlcl_set_deactivated
                   (lnot (snd (tlcl_flags env (calls w))))]).
Proof.
  intros cfg env w.
  unfold tpm1_invoke_state_machine, toggle_deactivated, bind, tlcl_get_flags,
    tlcl_set_enable, tlcl_set_deactivated, tlcl, printk, ret.
  destruct (tlcl_flags env (calls w)) as [disabled deactivated].
  cbn [issue fst snd calls console].
  destruct (failed (tlcl_reply env (calls w) Tlcl_get_flags)).
  { exists [], []. cbn [fst snd calls app]. auto. }
  destruct (nonzero disabled); cbn [issue fst snd calls console].
  - destruct (failed (tlcl_reply env (calls w ++ [Tlcl_get_flags])
                        Tlcl_set_enable)).
    { exists [Tlcl_set_enable], []. cbn [fst snd calls app].
      rewrite <- app_assoc. auto. }
    destruct (Bool.eqb (nonzero deactivated) (CONFIG_TPM_DEACTIVATE cfg));
      cbn [negb issue fst snd calls console].
    + exists [Tlcl_set_enable], []. cbn [fst snd calls app].
      rewrite <- app_assoc. auto.
    + exists [Tlcl_set_enable], [Tlcl_set_deactivated (lnot deactivated)].
      match goal with
      | |- context [failed ?r] => destruct (failed r)
      end; cbn [fst snd calls app]; rewrite <- !app_assoc; auto.
  - destruct (Bool.eqb (nonzero deactivated) (CONFIG_TPM_DEACTIVATE cfg));
      cbn [negb issue fst snd calls console].
    + exists [], []. cbn [fst snd calls app]. auto.
    + exists [], [Tlcl_set_deactivated (lnot deactivated)].
      match goal with
      | |- context [failed ?r] => destruct (failed r)
      end; cbn [fst snd calls app]; rewrite <- !app_assoc; auto.
Qed.

(** Lines 174-178: what follows a successful physical-presence assertion is
    the reconciler (under [CONFIG(TPM1)]) and the epilogue. *)
Lemma setup_finish_trace :
  forall cfg env w,
    let run := tpm_setup_finish cfg env TPM_SUCCESS w in
    exists issued,
      calls (snd run) = calls w ++ issued ++ failure_signal cfg (fst run) /\
      forallb reconciler_call issued = true /\
      (CONFIG_TPM1 cfg = false -> issued = [] /\ fst run = TPM_SUCCESS) /\
      (CONFIG_TPM1 cfg = true ->
       fst run = fst (tpm1_invoke_state_machine cfg env w) /\
       calls w ++ issued = calls (snd (tpm1_invoke_state_machine cfg env w))).
Proof.
  intros cfg env w run. subst run. unfold tpm_setup_finish, bind.
  destruct (CONFIG_TPM1 cfg).
  - destruct (reconciler_shape cfg env w) as (enable & toggle & Hcalls & Hen & Htg).
    destruct (tpm1_invoke_state_machine cfg env w) as [result w1].
    cbn [fst snd] in *.
    destruct (epilogue_forwards cfg result w1) as [Hres Hepi].
    rewrite Hres, Hepi, Hcalls.
    exists (Tlcl_get_flags :: enable ++ toggle).
    rewrite <- app_assoc.
    split; [reflexivity |]. split.
    + destruct Hen as [-> | ->], Htg as [-> | ->]; reflexivity.
    + split; [discriminate | intros _; split; reflexivity].
  - unfold ret.
    destruct (epilogue_forwards cfg TPM_SUCCESS w) as [Hres Hepi].
    rewrite Hres, Hepi. exists [].
    split; [reflexivity | split; [reflexivity | split]].
    + intros _. split; reflexivity.
    + discriminate.
Qed.

Lemma reconciler_calls_no_post_code :
  forall issued,
    forallb reconciler_call issued = true -> filter is_post_code issued = [].
Proof.
  induction issued as [| c rest IH]; intro Hrec; [reflexivity |].
  cbn [forallb] in Hrec. apply andb_true_iff in Hrec.
  destruct Hrec as [Hc Hrest].
  destruct c; try discriminate Hc; cbn [filter is_post_code]; exact (IH Hrest).
Qed.

(** The calls of [l] that come before the failure signal, and before the
    calls [issued] of lines 174-178. *)
Ltac strip_signal l :=
  lazymatch l with
  | failure_signal _ _ => constr:(@nil call)
  | ?x :: ?r => let r' := strip_signal r in constr:(x :: r')
  end.

Ltac strip_issued issued l :=
  lazymatch l with
  | issued ++ _ => constr:(@nil call)
  | ?x :: ?r => let r' := strip_issued issued r in constr:(x :: r')
  end.

(** A path of [tpm_setup] that ends in the epilogue. *)
Ltac epilogue_leaf :=
  cbn [fst snd calls console];
  match goal with
  | |- context [tpm_setup_epilogue ?c ?r ?w1] =>
      let Hres := fresh "Hres" in
      let Hepi := fresh "Hepi" in
      destruct (epilogue_forwards c r w1) as [Hres Hepi];
      rewrite Hres, Hepi;
      cbn [calls] in Hepi; rewrite <- ?app_assoc in Hepi; cbn [app] in Hepi;
      match type of Hepi with
      | _ = calls _ ++ ?l =>
          let issued := strip_signal l in
          exists issued
      end;
      cbn [calls]; rewrite <- ?app_assoc; cbn [app];
      split; [reflexivity | split; [reflexivity | intros _; reflexivity]]
  end.

(** A path of [tpm_setup] that reaches lines 174-178. *)
Ltac finish_leaf :=
  cbn [fst snd calls console];
  match goal with
  | |- context [tpm_setup_finish ?c ?e ?r ?w1] =>
      let issued := fresh "issued" in
      let Hcalls := fresh "Hcalls" in
      let Hrec := fresh "Hrec" in
      let Hgen2 := fresh "Hgen2" in
      let Hgen := fresh "Hgen" in
      destruct (setup_finish_trace c e w1)
        as (issued & Hcalls & Hrec & Hgen2 & _);
      rewrite Hcalls;
      cbn [calls] in Hcalls; rewrite <- ?app_assoc in Hcalls;
      cbn [app] in Hcalls;
      match type of Hcalls with
      | _ = calls _ ++ ?l =>
          let before := strip_issued issued l in
          exists (before ++ issued)
      end;
      cbn [calls]; rewrite <- ?app_assoc; cbn [app];
      split;
      [ reflexivity
      | split;
        [ cbn [app filter is_post_code];
          exact (reconciler_calls_no_post_code issued Hrec)
        | intro Hgen; destruct (Hgen2 Hgen) as [-> _]; reflexivity ] ]
  end.

(** [tpm_setup] in two parts: the initialisation with the resume path,
    and the cold-boot path. *)
Lemma tpm_setup_paths :
  forall cfg env s3flag w,
    tpm_setup cfg env s3flag w
    = let (result, w1) := tlcl_lib_init env w in
      if failed result then
        (printk BIOS_ERR "TPM: Can't initialize.\n" ;;
         tpm_setup_epilogue cfg result) w1
      else if nonzero s3flag then
        (printk BIOS_INFO "TPM: Handle S3 resume.\n" ;;
         result <- tpm_setup_s3_helper env ;;
         tpm_setup_epilogue cfg result) w1
      else setup_cold_boot cfg env w1.
Proof.
  intros cfg env s3flag w. unfold tpm_setup, bind.
  destruct (tlcl_lib_init env w) as [result w1].
  destruct (failed result); [reflexivity |].
  destruct (nonzero s3flag); reflexivity.
Qed.

Lemma setup_presence_trace :
  forall cfg env w,
    let run := setup_presence cfg env w in
    exists issued,
      calls (snd run) = calls w ++ issued ++ failure_signal cfg (fst run) /\
      filter is_post_code issued = [] /\
      (CONFIG_TPM1 cfg = false -> filter reconciler_call issued = []).
Proof.
  intros cfg env w run. subst run.
  unfold setup_presence, bind, tlcl_assert_physical_presence,
    tlcl_physical_presence_cmd_enable, tlcl, printk.
  cbn [issue fst snd calls console].
  destruct (failed (tlcl_reply env (calls w) Tlcl_assert_physical_presence))
    eqn:Hfirst.
  2: { rewrite (failed_false _ Hfirst). finish_leaf. }
  match goal with
  | |- context [if failed ?r then _ else _] => destruct (failed r)
  end; [epilogue_leaf |].
  match goal with
  | |- context [if failed ?r then _ else _] => destruct (failed r) eqn:Hretry
  end; [epilogue_leaf |].
  rewrite (failed_false _ Hretry). finish_leaf.
Qed.

(** Every path of [tpm_setup] ends in the epilogue: what was issued before
    it holds no post code, and no reconciler command unless [CONFIG(TPM1)]
    is set. *)
Lemma setup_trace :
  forall cfg env s3flag w,
    let run := tpm_setup cfg env s3flag w in
    exists issued,
      calls (snd run) = calls w ++ issued ++ failure_signal cfg (fst run) /\
      filter is_post_code issued = [] /\
      (CONFIG_TPM1 cfg = false -> filter reconciler_call issued = []).
Proof.
  intros cfg env s3flag w run. subst run. rewrite tpm_setup_paths.
  unfold tlcl_lib_init, tlcl, bind, printk.
  cbn [issue fst snd calls console].
  destruct (failed (tlcl_reply env (calls w) Tlcl_lib_init));
    [epilogue_leaf |].
  destruct (nonzero s3flag).
  { unfold tpm_setup_s3_helper, bind, tlcl_resume, tlcl, printk, ret.
    cbn [issue fst snd calls console].
    destruct (tlcl_reply env (calls w ++ [Tlcl_lib_init]) Tlcl_resume);
      epilogue_leaf. }
  assert (Hpresence :
    forall w1,
      calls w1 = (calls w ++ [Tlcl_lib_init]) ++ [Tlcl_startup] ->
      exists issued,
        calls (snd (setup_presence cfg env w1))
        = calls w ++ issued
            ++ failure_signal cfg (fst (setup_presence cfg env w1)) /\
        filter is_post_code issued = [] /\
        (CONFIG_TPM1 cfg = false -> filter reconciler_call issued = [])).
  { intros w1 Hw1.
    destruct (setup_presence_trace cfg env w1)
      as (issued & Hcalls & Hclean & Hgen2).
    exists (Tlcl_lib_init :: Tlcl_startup :: issued).
    rewrite Hcalls, Hw1, <- !app_assoc.
    split; [reflexivity | split; [exact Hclean | exact Hgen2]]. }
  unfold setup_cold_boot, tlcl_startup, tlcl, ignore_postinit, bind, printk, ret.
  cbn [issue fst snd calls console].
  destruct (tlcl_reply env (calls w ++ [Tlcl_lib_init]) Tlcl_startup);
    try destruct (CONFIG_TPM_STARTUP_IGNORE_POSTINIT cfg);
    cbn [failed fst snd calls console];
    try epilogue_leaf;
    (apply Hpresence; reflexivity).
Qed.

(** ** The state reconciler, for any device *)

(** X1.  The reconciler returns [TPM_SUCCESS] exactly when the flags could
    be read, the device was enabled or could be enabled, and [deactivated]
    already equals [CONFIG(TPM_DEACTIVATE)].  A success therefore means that
    the activation state the device reported is the configured one. *)
Theorem reconciler_success_iff :
  forall cfg env w,
    let disabled := fst (tlcl_flags env (calls w)) in
    let deactivated := snd (tlcl_flags env (calls w)) in
    fst (tpm1_invoke_state_machine cfg env w) = TPM_SUCCESS <->
    tlcl_reply env (calls w) Tlcl_get_flags = TPM_SUCCESS /\
    (nonzero disabled = true ->
     tlcl_reply env (calls w ++ [Tlcl_get_flags]) Tlcl_set_enable = TPM_SUCCESS) /\
    nonzero deactivated = CONFIG_TPM_DEACTIVATE cfg.
Proof.
  intros cfg env w disabled deactivated. subst disabled deactivated.
  unfold tpm1_invoke_state_machine, toggle_deactivated, bind, tlcl_get_flags,
    tlcl_set_enable, tlcl_set_deactivated, tlcl, printk, ret.
  destruct (tlcl_flags env (calls w)) as [disabled deactivated].
  cbn [issue fst snd calls console].
  destruct (tlcl_reply env (calls w) Tlcl_get_flags) eqn:Hget; cbn [failed fst];
    try (split; [discriminate | intros [H _]; discriminate H]).
  destruct (nonzero disabled) eqn:Hdis; cbn [issue fst snd calls console].
  - destruct (tlcl_reply env (calls w ++ [Tlcl_get_flags]) Tlcl_set_enable)
      eqn:Hen; cbn [failed fst];
      try (split; [discriminate | intros (_ & H & _); discriminate (H eq_refl)]).
    destruct (Bool.eqb (nonzero deactivated) (CONFIG_TPM_DEACTIVATE cfg)) eqn:E;
      cbn [negb issue fst snd calls console].
    + apply Bool.eqb_prop in E. split; [intros _; auto | reflexivity].
    + apply Bool.eqb_false_iff in E.
      match goal with
      | |- context [failed ?r] => destruct r
      end; cbn [failed fst];
        (split; [discriminate | intros (_ & _ & H); contradiction]).
  - destruct (Bool.eqb (nonzero deactivated) (CONFIG_TPM_DEACTIVATE cfg)) eqn:E;
      cbn [negb issue fst snd calls console].
    + apply Bool.eqb_prop in E.
      split; [intros _; repeat split; [discriminate | exact E] | reflexivity].
    + apply Bool.eqb_false_iff in E.
      match goal with
      | |- context [failed ?r] => destruct r
      end; cbn [failed fst];
        (split; [discriminate | intros (_ & _ & H); contradiction]).
Qed.

(** X2.  When [tlcl_get_flags] fails the reconciler returns its status and
    issues nothing else: no enable and no toggle are decided on flags that
    were not read. *)
Theorem reconciler_unreadable_flags :
  forall cfg env w,
    failed (tlcl_reply env (calls w) Tlcl_get_flags) = true ->
    fst (tpm1_invoke_state_machine cfg env w)
    = tlcl_reply env (calls w) Tlcl_get_flags /\
    calls (snd (tpm1_invoke_state_machine cfg env w))
    = calls w ++ [Tlcl_get_flags].
Proof.
  intros cfg env w Hget.
  unfold tpm1_invoke_state_machine, bind, tlcl_get_flags, printk, ret.
  destruct (tlcl_flags env (calls w)) as [disabled deactivated].
  rewrite Hget. split; reflexivity.
Qed.

Lemma reconciler_unreadable_flags_witness :
  let env := scripted (refusing reconciler_call TPM_E_IOERROR) (1, 1)
               (fun _ => false) in
  fst (tpm1_invoke_state_machine tpm1_board env initial_world) = TPM_E_IOERROR /\
  calls (snd (tpm1_invoke_state_machine tpm1_board env initial_world))
  = [] ++ [Tlcl_get_flags].
Proof.
  apply (reconciler_unreadable_flags tpm1_board
           (scripted (refusing reconciler_call TPM_E_IOERROR) (1, 1)
              (fun _ => false)) initial_world).
  reflexivity.
Defined.

(** X3.  For a device that reports itself disabled the reconciler issues
    [tlcl_set_enable] exactly once, right after [tlcl_get_flags] and before
    anything that depends on [deactivated]; when the device refuses it the
    reconciler stops there and returns that status. *)
Theorem reconciler_enables_first :
  forall cfg env w,
    tlcl_reply env (calls w) Tlcl_get_flags = TPM_SUCCESS ->
    nonzero (fst (tlcl_flags env (calls w))) = true ->
    let run := tpm1_invoke_state_machine cfg env w in
    let enabled := tlcl_reply env (calls w ++ [Tlcl_get_flags]) Tlcl_set_enable in
    exists rest,
      calls (snd run) = calls w ++ Tlcl_get_flags :: Tlcl_set_enable :: rest /\
      filter is_set_enable rest = [] /\
      (failed enabled = true -> rest = [] /\ fst run = enabled).
Proof.
  intros cfg env w Hget Hdis run enabled. subst run.
  destruct (tlcl_flags env (calls w)) as [disabled deactivated] eqn:Hflags.
  cbn [fst] in Hdis.
  rewrite (reconciler_disabled_device cfg env w disabled deactivated
             Hget Hflags Hdis).
  fold enabled. destruct (failed enabled) eqn:Hen.
  - exists []. cbn [fst snd calls]. rewrite <- app_assoc.
    repeat split.
  - unfold toggle_deactivated, bind, tlcl_set_deactivated, tlcl, printk, ret.
    destruct (Bool.eqb (nonzero deactivated) (CONFIG_TPM_DEACTIVATE cfg));
      cbn [negb issue fst snd calls console].
    + exists []. rewrite <- app_assoc.
      split; [reflexivity | split; [reflexivity | discriminate]].
    + exists [Tlcl_set_deactivated (lnot deactivated)].
      match goal with
      | |- context [if failed ?r then _ else _] => destruct (failed r)
      end; cbn [fst snd calls]; rewrite <- !app_assoc;
        (split; [reflexivity | split; [reflexivity | discriminate]]).
Qed.

Lemma reconciler_enables_first_witness :
  let env := scripted enable_refused (1, 1) (fun _ => false) in
  let run := tpm1_invoke_state_machine tpm1_board env initial_world in
  exists rest,
    calls (snd run) = [] ++ Tlcl_get_flags :: Tlcl_set_enable :: rest /\
    filter is_set_enable rest = [] /\
    (true = true -> rest = [] /\ fst run = TPM_E_DEVICE 1).
Proof.
  apply (reconciler_enables_first tpm1_board
           (scripted enable_refused (1, 1) (fun _ => false)) initial_world);
    reflexivity.
Defined.

(** X4.  Whatever the device answers, the reconciler issues at most three
    commands, in the order get-flags, enable, toggle, each at most once; the
    argument of the toggle is 0 or 1 and is the negation of the
    [deactivated] flag that was read. *)
Theorem reconciler_call_bound :
  forall cfg env w,
    let deactivated := snd (tlcl_flags env (calls w)) in
    exists enable toggle,
      calls (snd (tpm1_invoke_state_machine cfg env w))
      = calls w ++ Tlcl_get_flags :: enable ++ toggle /\
      (enable = [] \/ enable = [Tlcl_set_enable]) /\
      (toggle = [] \/
       exists flag,
         toggle = [Tlcl_set_deactivated flag] /\
         (flag = 0 \/ flag = 1) /\
         (flag = 0 <-> deactivated <> 0)) /\
      (List.length (Tlcl_get_flags :: enable ++ toggle) <= 3)%nat.
Proof.
  intros cfg env w deactivated.
  destruct (reconciler_shape cfg env w) as (enable & toggle & Hcalls & Hen & Htg).
  exists enable, toggle. split; [exact Hcalls |]. split; [exact Hen |]. split.
  - destruct Htg as [Htg | Htg]; [left; exact Htg | right].
    exists (lnot deactivated). split; [exact Htg |].
    unfold lnot. destruct (Z.eqb_spec deactivated 0) as [Hz | Hnz].
    + split; [right; reflexivity |]. split; [discriminate | contradiction].
    + split; [left; reflexivity |]. split; [intros _; exact Hnz | reflexivity].
  - destruct Hen as [-> | ->], Htg as [-> | ->]; cbn [app List.length]; lia.
Qed.

(** ** Setup, for any device *)

(** The four ways through lines 154-172. *)
Lemma setup_presence_paths :
  forall cfg env w,
    let h1 := calls w ++ [Tlcl_assert_physical_presence] in
    let h2 := h1 ++ [Tlcl_physical_presence_cmd_enable] in
    let h3 := h2 ++ [Tlcl_assert_physical_presence] in
    let first := tlcl_reply env (calls w) Tlcl_assert_physical_presence in
    let enabled := tlcl_reply env h1 Tlcl_physical_presence_cmd_enable in
    let retry := tlcl_reply env h2 Tlcl_assert_physical_presence in
    let run := setup_presence cfg env w in
    if failed first then
      if failed enabled then
        fst run = enabled /\ calls (snd run) = h2 ++ failure_signal cfg enabled
      else if failed retry then
        fst run = retry /\ calls (snd run) = h3 ++ failure_signal cfg retry
      else
        exists w1, calls w1 = h3 /\ run = tpm_setup_finish cfg env TPM_SUCCESS w1
    else
      exists w1, calls w1 = h1 /\ run = tpm_setup_finish cfg env TPM_SUCCESS w1.
Proof.
  intros cfg env w h1 h2 h3 first enabled retry run.
  subst run retry enabled first h3 h2 h1.
  unfold setup_presence, bind, tlcl_assert_physical_presence,
    tlcl_physical_presence_cmd_enable, tlcl, printk.
  cbn [issue fst snd calls console].
  destruct (failed (tlcl_reply env (calls w) Tlcl_assert_physical_presence))
    eqn:Hfirst; cbn [issue fst snd calls console].
  2: { rewrite (failed_false _ Hfirst).
       refine (ex_intro _ _ (conj _ eq_refl)). reflexivity. }
  destruct (failed (tlcl_reply env (calls w ++ [Tlcl_assert_physical_presence])
                      Tlcl_physical_presence_cmd_enable));
    cbn [issue fst snd calls console].
  { apply epilogue_forwards. }
  destruct (failed (tlcl_reply env
                      ((calls w ++ [Tlcl_assert_physical_presence])
                         ++ [Tlcl_physical_presence_cmd_enable])
                      Tlcl_assert_physical_presence)) eqn:Hretry;
    cbn [issue fst snd calls console].
  { apply epilogue_forwards. }
  rewrite (failed_false _ Hretry).
  refine (ex_intro _ _ (conj _ eq_refl)). reflexivity.
Qed.

(** Lines 143-152: the startup command and its gate. *)
Lemma setup_cold_boot_paths :
  forall cfg env w,
    let started := tlcl_reply env (calls w) Tlcl_startup in
    let run := setup_cold_boot cfg env w in
    if startup_accepted cfg started then
      exists w1,
        calls w1 = calls w ++ [Tlcl_startup] /\ run = setup_presence cfg env w1
    else
      fst run = started /\
      calls (snd run) = (calls w ++ [Tlcl_startup]) ++ failure_signal cfg started.
Proof.
  intros cfg env w started run. subst run started.
  unfold setup_cold_boot, startup_accepted, ignore_postinit, bind, tlcl_startup,
    tlcl, printk, ret.
  cbn [issue fst snd calls console].
  destruct (tlcl_reply env (calls w) Tlcl_startup);
    try destruct (CONFIG_TPM_STARTUP_IGNORE_POSTINIT cfg);
    cbn [failed fst snd calls console];
    try (refine (ex_intro _ _ (conj _ eq_refl)); reflexivity);
    apply epilogue_forwards.
Qed.

(** A cold boot after a successful [tlcl_lib_init] is the cold-boot path. *)
Lemma setup_enters_cold_boot :
  forall cfg env s3flag w,
    s3flag = 0 ->
    tlcl_reply env (calls w) Tlcl_lib_init = TPM_SUCCESS ->
    tpm_setup cfg env s3flag w
    = setup_cold_boot cfg env
        {| calls := calls w ++ [Tlcl_lib_init]; console := console w |}.
Proof.
  intros cfg env s3flag w -> Hinit. rewrite tpm_setup_paths.
  unfold tlcl_lib_init, tlcl. cbn [issue snd]. rewrite Hinit. reflexivity.
Qed.

(** Whatever follows, lines 154-178 start with the assertion. *)
Lemma setup_presence_asserts_first :
  forall cfg env w,
    exists rest,
      calls (snd (setup_presence cfg env w))
      = calls w ++ Tlcl_assert_physical_presence :: rest.
Proof.
  intros cfg env w. pose proof (setup_presence_paths cfg env w) as Hpaths.
  cbv zeta in Hpaths.
  destruct (failed (tlcl_reply env (calls w) Tlcl_assert_physical_presence)).
  - destruct (failed (tlcl_reply env
                        (calls w ++ [Tlcl_assert_physical_presence])
                        Tlcl_physical_presence_cmd_enable)).
    + destruct Hpaths as [_ ->]. rewrite <- !app_assoc. eexists. reflexivity.
    + destruct (failed (tlcl_reply env
                          ((calls w ++ [Tlcl_assert_physical_presence])
                             ++ [Tlcl_physical_presence_cmd_enable])
                          Tlcl_assert_physical_presence)).
      * destruct Hpaths as [_ ->]. rewrite <- !app_assoc.
        eexists. reflexivity.
      * destruct Hpaths as (w1 & Hw1 & ->).
        destruct (setup_finish_trace cfg env w1) as (issued & -> & _).
        rewrite Hw1, <- !app_assoc. eexists. reflexivity.
  - destruct Hpaths as (w1 & Hw1 & ->).
    destruct (setup_finish_trace cfg env w1) as (issued & -> & _).
    rewrite Hw1, <- !app_assoc. eexists. reflexivity.
Qed.

(** A failed [tlcl_lib_init] is what [tpm_setup] returns. *)
Lemma setup_lib_init_failure_inv :
  forall cfg env s3flag w,
    failed (tlcl_reply env (calls w) Tlcl_lib_init) = true ->
    fst (tpm_setup cfg env s3flag w) = tlcl_reply env (calls w) Tlcl_lib_init /\
    calls (snd (tpm_setup cfg env s3flag w))
    = (calls w ++ [Tlcl_lib_init])
        ++ failure_signal cfg (tlcl_reply env (calls w) Tlcl_lib_init).
Proof.
  intros cfg env s3flag w Hinit. rewrite tpm_setup_paths.
  unfold tlcl_lib_init, tlcl, bind, printk. cbn [issue snd].
  rewrite Hinit. cbn [fst snd calls console]. apply epilogue_forwards.
Qed.

(** X5.  The failure post code is sent exactly when [tpm_setup] does not
    return [TPM_SUCCESS] - also for [TPM_E_MUST_REBOOT] - and then it is
    sent once, as the very last call; the epilogue returns the status it
    was given. *)
Theorem setup_failure_signal :
  forall cfg env s3flag w,
    let run := tpm_setup cfg env s3flag w in
    exists issued,
      calls (snd run)
      = calls w ++ issued
          ++ (if failed (fst run) then [Post_code (POST_TPM_FAILURE cfg)]
              else []) /\
      filter is_post_code issued = [].
Proof.
  intros cfg env s3flag w run.
  destruct (setup_trace cfg env s3flag w) as (issued & Hcalls & Hclean & _).
  exists issued. split; [exact Hcalls | exact Hclean].
Qed.

(** X6.  Without [CONFIG(TPM1)] no command of the reconciler - get-flags,
    enable, toggle - is ever issued by [tpm_setup], on a cold boot or on
    resume, whatever the device answers. *)
Theorem setup_without_tpm1_skips_reconciler :
  forall cfg env s3flag w,
    CONFIG_TPM1 cfg = false ->
    exists issued,
      calls (snd (tpm_setup cfg env s3flag w)) = calls w ++ issued /\
      filter reconciler_call issued = [].
Proof.
  intros cfg env s3flag w Hgen.
  destruct (setup_trace cfg env s3flag w) as (issued & Hcalls & _ & Hnone).
  eexists. split; [exact Hcalls |].
  rewrite filter_app, (Hnone Hgen). unfold failure_signal.
  destruct (failed (fst (tpm_setup cfg env s3flag w))); reflexivity.
Qed.

Lemma setup_without_tpm1_skips_reconciler_witness :
  exists issued,
    calls (snd (tpm_setup tpm2_board cooperative 0 initial_world))
    = [] ++ issued /\
    filter reconciler_call issued = [].
Proof.
  apply (setup_without_tpm1_skips_reconciler tpm2_board cooperative 0
           initial_world).
  reflexivity.
Defined.

(** X7.  When [tlcl_lib_init] fails, [tpm_setup] returns its status and the
    only other call is the failure post code - with or without the resume
    flag. *)
Theorem setup_lib_init_failure :
  forall cfg env s3flag w,
    failed (tlcl_reply env (calls w) Tlcl_lib_init) = true ->
    fst (tpm_setup cfg env s3flag w) = tlcl_reply env (calls w) Tlcl_lib_init /\
    calls (snd (tpm_setup cfg env s3flag w))
    = calls w ++ [Tlcl_lib_init; Post_code (POST_TPM_FAILURE cfg)].
Proof.
  intros cfg env s3flag w Hinit.
  destruct (setup_lib_init_failure_inv cfg env s3flag w Hinit) as [-> ->].
  unfold failure_signal. rewrite Hinit, <- app_assoc. split; reflexivity.
Qed.

Lemma setup_lib_init_failure_witness :
  let env := scripted (fun _ => TPM_E_IOERROR) (0, 0) (fun _ => false) in
  fst (tpm_setup tpm1_board env 1 initial_world) = TPM_E_IOERROR /\
  calls (snd (tpm_setup tpm1_board env 1 initial_world))
  = [] ++ [Tlcl_lib_init; Post_code 237].
Proof.
  apply (setup_lib_init_failure tpm1_board
           (scripted (fun _ => TPM_E_IOERROR) (0, 0) (fun _ => false)) 1
           initial_world).
  reflexivity.
Defined.

(** X8.  On a cold boot the startup command comes right after the
    initialisation and gates everything else: a status that is neither
    success nor a tolerated invalid-post-init ends [tpm_setup] with that
    status before any physical-presence or reconciler command; an accepted
    one is followed by the physical-presence assertion. *)
Theorem setup_startup_gate :
  forall cfg env s3flag w,
    s3flag = 0 ->
    tlcl_reply env (calls w) Tlcl_lib_init = TPM_SUCCESS ->
    let run := tpm_setup cfg env s3flag w in
    let started := tlcl_reply env (calls w ++ [Tlcl_lib_init]) Tlcl_startup in
    if startup_accepted cfg started then
      exists rest,
        calls (snd run)
        = calls w ++ Tlcl_lib_init :: Tlcl_startup
            :: Tlcl_assert_physical_presence :: rest
    else
      fst run = started /\
      calls (snd run)
      = calls w ++ [Tlcl_lib_init; Tlcl_startup; Post_code (POST_TPM_FAILURE cfg)].
Proof.
  intros cfg env s3flag w Hs3 Hinit run started. subst run started.
  rewrite (setup_enters_cold_boot cfg env s3flag w Hs3 Hinit).
  match goal with
  | |- context [setup_cold_boot cfg env ?w1] =>
      pose proof (setup_cold_boot_paths cfg env w1) as Hcold
  end.
  cbv zeta in Hcold. cbn [calls] in Hcold.
  destruct (startup_accepted cfg
              (tlcl_reply env (calls w ++ [Tlcl_lib_init]) Tlcl_startup))
    eqn:Hacc.
  - destruct Hcold as (w1 & Hw1 & ->).
    destruct (setup_presence_asserts_first cfg env w1) as (rest & ->).
    exists rest. rewrite Hw1, <- !app_assoc. reflexivity.
  - destruct Hcold as [-> ->]. unfold failure_signal.
    assert (Hfail : failed (tlcl_reply env (calls w ++ [Tlcl_lib_init])
                              Tlcl_startup) = true).
    { unfold startup_accepted in Hacc.
      destruct (tlcl_reply env (calls w ++ [Tlcl_lib_init]) Tlcl_startup);
        try reflexivity.
      discriminate Hacc. }
    rewrite Hfail, <- !app_assoc. split; reflexivity.
Qed.

Lemma setup_startup_gate_witness :
  exists rest,
    calls (snd (tpm_setup tpm2_board
                  (scripted already_started (0, 0) (fun _ => false)) 0
                  initial_world))
    = [] ++ Tlcl_lib_init :: Tlcl_startup :: Tlcl_assert_physical_presence
        :: rest.
Proof.
  apply (setup_startup_gate tpm2_board
           (scripted already_started (0, 0) (fun _ => false)) 0 initial_world);
    reflexivity.
Defined.

(** X9.  When the first physical-presence assertion fails and both the
    enabling command and the retried assertion succeed, [tpm_setup] went
    through exactly two assertions and one enabling command and carries on
    with lines 174-178: under [CONFIG(TPM1)] the reconciler runs next, its
    calls follow the retried assertion, its status is the result, and only
    the failure post code comes after it; without [CONFIG(TPM1)] nothing
    follows and the result is [TPM_SUCCESS]. *)
Theorem setup_presence_remediation :
  forall cfg env s3flag w,
    s3flag = 0 ->
    tlcl_reply env (calls w) Tlcl_lib_init = TPM_SUCCESS ->
    let h := calls w ++ [Tlcl_lib_init; Tlcl_startup] in
    startup_accepted cfg
      (tlcl_reply env (calls w ++ [Tlcl_lib_init]) Tlcl_startup) = true ->
    failed (tlcl_reply env h Tlcl_assert_physical_presence) = true ->
    tlcl_reply env (h ++ [Tlcl_assert_physical_presence])
      Tlcl_physical_presence_cmd_enable = TPM_SUCCESS ->
    tlcl_reply env
      (h ++ [Tlcl_assert_physical_presence; Tlcl_physical_presence_cmd_enable])
      Tlcl_assert_physical_presence = TPM_SUCCESS ->
    let run := tpm_setup cfg env s3flag w in
    let presence :=
      [Tlcl_assert_physical_presence; Tlcl_physical_presence_cmd_enable;
       Tlcl_assert_physical_presence] in
    exists rest,
      calls (snd run) = h ++ presence ++ rest /\
      filter is_assert_presence rest = [] /\
      filter is_presence_cmd_enable rest = [] /\
      (CONFIG_TPM1 cfg = false -> rest = [] /\ fst run = TPM_SUCCESS) /\
      (CONFIG_TPM1 cfg = true ->
       exists w1,
         calls w1 = h ++ presence /\
         fst run = fst (tpm1_invoke_state_machine cfg env w1) /\
         calls (snd run)
         = calls (snd (tpm1_invoke_state_machine cfg env w1))
             ++ failure_signal cfg (fst run) /\
         exists issued,
           rest = Tlcl_get_flags :: issued ++ failure_signal cfg (fst run)).
Proof.
  intros cfg env s3flag w Hs3 Hinit h Hacc Hfirst Hcmd Hretry run presence.
  subst run presence h.
  rewrite (setup_enters_cold_boot cfg env s3flag w Hs3 Hinit).
  match goal with
  | |- context [setup_cold_boot cfg env ?w1] =>
      pose proof (setup_cold_boot_paths cfg env w1) as Hcold
  end.
  cbv zeta in Hcold. cbn [calls] in Hcold. rewrite Hacc in Hcold.
  destruct Hcold as (w1 & Hw1 & ->).
  pose proof (setup_presence_paths cfg env w1) as Hpaths.
  cbv zeta in Hpaths. rewrite Hw1, <- !app_assoc in Hpaths.
  cbn [app] in Hpaths, Hfirst, Hcmd, Hretry.
  rewrite <- !app_assoc in Hcmd, Hretry. cbn [app] in Hcmd, Hretry.
  rewrite Hfirst, Hcmd, Hretry in Hpaths. cbn [failed] in Hpaths.
  destruct Hpaths as (w2 & Hw2 & ->).
  destruct (setup_finish_trace cfg env w2)
    as (issued & Hcalls & Hrec & Hgen2 & Hgen1).
  destruct (reconciler_shape cfg env w2) as (enable & toggle & Hshape & _).
  rewrite Hcalls, Hw2.
  exists (issued
          ++ failure_signal cfg (fst (tpm_setup_finish cfg env TPM_SUCCESS w2))).
  split; [rewrite <- !app_assoc; reflexivity |].
  assert (Hquiet : filter is_assert_presence issued = [] /\
                   filter is_presence_cmd_enable issued = []).
  { clear - Hrec. induction issued as [| c rest IH]; [split; reflexivity |].
    cbn [forallb] in Hrec. apply andb_true_iff in Hrec.
    destruct Hrec as [Hc Hrest]. destruct (IH Hrest) as [IH1 IH2].
    destruct c; try discriminate Hc;
      cbn [filter is_assert_presence is_presence_cmd_enable];
      split; assumption. }
  destruct Hquiet as [Hq1 Hq2].
  rewrite !filter_app, Hq1, Hq2.
  assert (Hsig : forall result,
             filter is_assert_presence (failure_signal cfg result) = [] /\
             filter is_presence_cmd_enable (failure_signal cfg result) = []).
  { intro result. unfold failure_signal.
    destruct (failed result); split; reflexivity. }
  destruct (Hsig (fst (tpm_setup_finish cfg env TPM_SUCCESS w2))) as [-> ->].
  split; [reflexivity | split; [reflexivity | split]].
  - intro Hgen. destruct (Hgen2 Hgen) as [-> Hres]. rewrite Hres.
    split; reflexivity.
  - intro Hgen. destruct (Hgen1 Hgen) as [Hres Hsame].
    exists w2.
    split; [rewrite Hw2, <- ?app_assoc; reflexivity |].
    split; [exact Hres |].
    split.
    + rewrite <- Hsame, Hw2, <- ?app_assoc. reflexivity.
    + rewrite Hshape in Hsame. apply app_inv_head in Hsame.
      exists (enable ++ toggle). rewrite Hsame. reflexivity.
Qed.

Lemma setup_presence_remediation_witness :
  let h := [] ++ [Tlcl_lib_init; Tlcl_startup] in
  let run := tpm_setup tpm1_board presence_locked 0 initial_world in
  let presence :=
    [Tlcl_assert_physical_presence; Tlcl_physical_presence_cmd_enable;
     Tlcl_assert_physical_presence] in
  exists rest,
    calls (snd run) = h ++ presence ++ rest /\
    filter is_assert_presence rest = [] /\
    filter is_presence_cmd_enable rest = [] /\
    (true = false -> rest = [] /\ fst run = TPM_SUCCESS) /\
    (true = true ->
     exists w1,
       calls w1 = h ++ presence /\
       fst run = fst (tpm1_invoke_state_machine tpm1_board presence_locked w1) /\
       calls (snd run)
       = calls (snd (tpm1_invoke_state_machine tpm1_board presence_locked w1))
           ++ failure_signal tpm1_board (fst run) /\
       exists issued,
         rest = Tlcl_get_flags :: issued ++ failure_signal tpm1_board (fst run)).
Proof.
  apply (setup_presence_remediation tpm1_board presence_locked 0 initial_world);
    reflexivity.
Defined.

(** X10.  The remediation is tried once.  When the enabling command fails,
    [tpm_setup] returns its status without a second assertion; when the
    retried assertion fails, [tpm_setup] returns that status; in both cases
    the failure post code is the only call that follows. *)
Theorem setup_presence_remediation_fails :
  forall cfg env s3flag w,
    s3flag = 0 ->
    tlcl_reply env (calls w) Tlcl_lib_init = TPM_SUCCESS ->
    let h := calls w ++ [Tlcl_lib_init; Tlcl_startup] in
    startup_accepted cfg
      (tlcl_reply env (calls w ++ [Tlcl_lib_init]) Tlcl_startup) = true ->
    failed (tlcl_reply env h Tlcl_assert_physical_presence) = true ->
    let enabled :=
      tlcl_reply env (h ++ [Tlcl_assert_physical_presence])
        Tlcl_physical_presence_cmd_enable in
    let retry :=
      tlcl_reply env
        (h ++ [Tlcl_assert_physical_presence; Tlcl_physical_presence_cmd_enable])
        Tlcl_assert_physical_presence in
    let run := tpm_setup cfg env s3flag w in
    (failed enabled = true ->
     fst run = enabled /\
     calls (snd run)
     = h ++ [Tlcl_assert_physical_presence; Tlcl_physical_presence_cmd_enable;
             Post_code (POST_TPM_FAILURE cfg)]) /\
    (failed enabled = false -> failed retry = true ->
     fst run = retry /\
     calls (snd run)
     = h ++ [Tlcl_assert_physical_presence; Tlcl_physical_presence_cmd_enable;
             Tlcl_assert_physical_presence; Post_code (POST_TPM_FAILURE cfg)]).
Proof.
  intros cfg env s3flag w Hs3 Hinit h Hacc Hfirst enabled retry run.
  subst run retry enabled h.
  rewrite (setup_enters_cold_boot cfg env s3flag w Hs3 Hinit).
  match goal with
  | |- context [setup_cold_boot cfg env ?w1] =>
      pose proof (setup_cold_boot_paths cfg env w1) as Hcold
  end.
  cbv zeta in Hcold. cbn [calls] in Hcold. rewrite Hacc in Hcold.
  destruct Hcold as (w1 & Hw1 & ->).
  pose proof (setup_presence_paths cfg env w1) as Hpaths.
  cbv zeta in Hpaths. rewrite Hw1, <- !app_assoc in Hpaths.
  cbn [app] in Hpaths, Hfirst. rewrite <- !app_assoc. cbn [app].
  rewrite Hfirst in Hpaths.
  split.
  - intro Hen. rewrite Hen in Hpaths. destruct Hpaths as [-> ->].
    unfold failure_signal. rewrite Hen. split; reflexivity.
  - intros Hen Hre. rewrite Hen, Hre in Hpaths. destruct Hpaths as [-> ->].
    unfold failure_signal. rewrite Hre. split; reflexivity.
Qed.

Lemma setup_presence_remediation_fails_witness :
  let env :=
    scripted (refusing (fun c => is_assert_presence c || is_presence_cmd_enable c)
                (TPM_E_DEVICE 7)) (0, 0) (fun _ => false) in
  let run := tpm_setup tpm1_board env 0 initial_world in
  fst run = TPM_E_DEVICE 7 /\
  calls (snd run)
  = ([] ++ [Tlcl_lib_init; Tlcl_startup])
      ++ [Tlcl_assert_physical_presence; Tlcl_physical_presence_cmd_enable;
          Post_code 237].
Proof.
  apply (setup_presence_remediation_fails tpm1_board
           (scripted
              (refusing (fun c => is_assert_presence c || is_presence_cmd_enable c)
                 (TPM_E_DEVICE 7)) (0, 0) (fun _ => false)) 0 initial_world);
    reflexivity.
Defined.

(** A reconciler that returned [TPM_SUCCESS] read a [deactivated] flag equal
    to the policy and issued no toggle. *)
Lemma reconciler_success_trace :
  forall cfg env w,
    fst (tpm1_invoke_state_machine cfg env w) = TPM_SUCCESS ->
    nonzero (snd (tlcl_flags env (calls w))) = CONFIG_TPM_DEACTIVATE cfg /\
    calls (snd (tpm1_invoke_state_machine cfg env w))
    = calls w ++ Tlcl_get_flags ::
        (if nonzero (fst (tlcl_flags env (calls w))) then [Tlcl_set_enable]
         else []).
Proof.
  intros cfg env w.
  unfold tpm1_invoke_state_machine, toggle_deactivated, bind, tlcl_get_flags,
    tlcl_set_enable, tlcl_set_deactivated, tlcl, printk, ret.
  destruct (tlcl_flags env (calls w)) as [disabled deactivated].
  cbn [issue fst snd calls console].
  destruct (tlcl_reply env (calls w) Tlcl_get_flags); cbn [failed fst];
    try discriminate.
  destruct (nonzero disabled); cbn [issue fst snd calls console].
  - destruct (tlcl_reply env (calls w ++ [Tlcl_get_flags]) Tlcl_set_enable);
      cbn [failed fst]; try discriminate.
    destruct (Bool.eqb (nonzero deactivated) (CONFIG_TPM_DEACTIVATE cfg)) eqn:E;
      cbn [negb issue fst snd calls console].
    + intros _. apply Bool.eqb_prop in E. rewrite <- app_assoc.
      split; [exact E | reflexivity].
    + match goal with
      | |- context [failed ?r] => destruct r
      end; cbn [failed fst]; discriminate.
  - destruct (Bool.eqb (nonzero deactivated) (CONFIG_TPM_DEACTIVATE cfg)) eqn:E;
      cbn [negb issue fst snd calls console].
    + intros _. apply Bool.eqb_prop in E. split; [exact E | reflexivity].
    + match goal with
      | |- context [failed ?r] => destruct r
      end; cbn [failed fst]; discriminate.
Qed.

(** X11.  A cold boot of a [CONFIG(TPM1)] build returns [TPM_SUCCESS] only
    after the flags were read and showed a [deactivated] flag equal to
    [CONFIG(TPM_DEACTIVATE)]; no toggle and no post code is in the trace of
    such a boot. *)
Theorem setup_success_means_policy :
  forall cfg env s3flag w,
    CONFIG_TPM1 cfg = true ->
    s3flag = 0 ->
    fst (tpm_setup cfg env s3flag w) = TPM_SUCCESS ->
    exists before after,
      calls (snd (tpm_setup cfg env s3flag w))
      = calls w ++ before ++ Tlcl_get_flags :: after /\
      nonzero (snd (tlcl_flags env (calls w ++ before)))
      = CONFIG_TPM_DEACTIVATE cfg /\
      filter is_toggle (before ++ Tlcl_get_flags :: after) = [] /\
      filter is_post_code (before ++ Tlcl_get_flags :: after) = [].
Proof.
  intros cfg env s3flag w Hgen Hs3 Hok.
  destruct (tlcl_reply env (calls w) Tlcl_lib_init) eqn:Hinit;
    try (destruct (setup_lib_init_failure_inv cfg env s3flag w) as [Hres _];
         [rewrite Hinit; reflexivity |];
         rewrite Hres, Hinit in Hok; discriminate Hok).
  rewrite (setup_enters_cold_boot cfg env s3flag w Hs3 Hinit) in Hok |- *.
  match goal with
  | |- context [setup_cold_boot cfg env ?w1] =>
      pose proof (setup_cold_boot_paths cfg env w1) as Hcold
  end.
  cbv zeta in Hcold. cbn [calls] in Hcold.
  destruct (startup_accepted cfg
              (tlcl_reply env (calls w ++ [Tlcl_lib_init]) Tlcl_startup))
    eqn:Hacc.
  2: { destruct Hcold as [Hres _]. rewrite Hres in Hok.
       rewrite Hok in Hacc. discriminate Hacc. }
  destruct Hcold as (w1 & Hw1 & Hrun). rewrite Hrun in Hok |- *. clear Hrun.
  assert (Hfinish :
    forall w2 pre,
      calls w2 = calls w ++ pre ->
      filter is_toggle pre = [] -> filter is_post_code pre = [] ->
      fst (tpm_setup_finish cfg env TPM_SUCCESS w2) = TPM_SUCCESS ->
      exists before after,
        calls (snd (tpm_setup_finish cfg env TPM_SUCCESS w2))
        = calls w ++ before ++ Tlcl_get_flags :: after /\
        nonzero (snd (tlcl_flags env (calls w ++ before)))
        = CONFIG_TPM_DEACTIVATE cfg /\
        filter is_toggle (before ++ Tlcl_get_flags :: after) = [] /\
        filter is_post_code (before ++ Tlcl_get_flags :: after) = []).
  { intros w2 pre Hw2 Htg Hpc Hfin.
    destruct (setup_finish_trace cfg env w2)
      as (issued & Hcalls & _ & _ & Hrec).
    destruct (Hrec Hgen) as [Hres Hsame]. clear Hrec.
    rewrite Hfin in Hcalls. unfold failure_signal in Hcalls.
    cbn [failed] in Hcalls. rewrite app_nil_r, Hsame in Hcalls.
    rewrite Hfin in Hres. symmetry in Hres.
    destruct (reconciler_success_trace cfg env w2 Hres) as [Hpolicy Htrace].
    rewrite Hcalls, Htrace, Hw2, <- app_assoc.
    exists pre. eexists. split; [reflexivity |].
    rewrite <- Hw2. split; [exact Hpolicy |].
    rewrite !filter_app, Htg, Hpc.
    destruct (nonzero (fst (tlcl_flags env (calls w2)))); split; reflexivity. }
  pose proof (setup_presence_paths cfg env w1) as Hpaths.
  cbv zeta in Hpaths.
  destruct (failed (tlcl_reply env (calls w1) Tlcl_assert_physical_presence)).
  - destruct (failed (tlcl_reply env
                        (calls w1 ++ [Tlcl_assert_physical_presence])
                        Tlcl_physical_presence_cmd_enable)) eqn:Hen.
    { destruct Hpaths as [Hres _]. rewrite Hres in Hok. rewrite Hok in Hen.
      discriminate Hen. }
    destruct (failed (tlcl_reply env
                        ((calls w1 ++ [Tlcl_assert_physical_presence])
                           ++ [Tlcl_physical_presence_cmd_enable])
                        Tlcl_assert_physical_presence)) eqn:Hre.
    { destruct Hpaths as [Hres _]. rewrite Hres in Hok. rewrite Hok in Hre.
      discriminate Hre. }
    destruct Hpaths as (w2 & Hw2 & Hrun). rewrite Hrun in Hok |- *.
    apply (Hfinish w2 [Tlcl_lib_init; Tlcl_startup;
                       Tlcl_assert_physical_presence;
                       Tlcl_physical_presence_cmd_enable;
                       Tlcl_assert_physical_presence]);
      [rewrite Hw2, Hw1, <- !app_assoc; reflexivity
      | reflexivity | reflexivity | exact Hok].
  - destruct Hpaths as (w2 & Hw2 & Hrun). rewrite Hrun in Hok |- *.
    apply (Hfinish w2 [Tlcl_lib_init; Tlcl_startup;
                       Tlcl_assert_physical_presence]);
      [rewrite Hw2, Hw1, <- !app_assoc; reflexivity
      | reflexivity | reflexivity | exact Hok].
Qed.

Lemma setup_success_means_policy_witness :
  exists before after,
    calls (snd (tpm_setup tpm1_board cooperative 0 initial_world))
    = [] ++ before ++ Tlcl_get_flags :: after /\
    nonzero (snd (tlcl_flags cooperative ([] ++ before))) = false /\
    filter is_toggle (before ++ Tlcl_get_flags :: after) = [] /\
    filter is_post_code (before ++ Tlcl_get_flags :: after) = [].
Proof.
  apply (setup_success_means_policy tpm1_board cooperative 0 initial_world);
    reflexivity.
Defined.

(** ** Clear and re-enable *)

(** X12.  Under [CONFIG(TPM1)], [tpm_clear_and_reenable] issues force-clear,
    enable and un-deactivate in that order and stops at the first command
    that fails, whose status it returns; it returns [TPM_SUCCESS] exactly
    when all three succeeded, and the deactivated flag it sets is always 0. *)
Theorem clear_and_reenable_sequence :
  forall cfg env w,
    CONFIG_TPM1 cfg = true ->
    let run := tpm_clear_and_reenable cfg env w in
    let cleared := tlcl_reply env (calls w) Tlcl_force_clear in
    let enabled := tlcl_reply env (calls w ++ [Tlcl_force_clear]) Tlcl_set_enable in
    let activated :=
      tlcl_reply env (calls w ++ [Tlcl_force_clear; Tlcl_set_enable])
        (Tlcl_set_deactivated 0) in
    calls (snd run)
    = calls w ++ Tlcl_force_clear ::
        (if failed cleared then []
         else Tlcl_set_enable ::
                (if failed enabled then [] else [Tlcl_set_deactivated 0])) /\
    fst run
    = (if failed cleared then cleared
       else if failed enabled then enabled
       else activated) /\
    (fst run = TPM_SUCCESS <->
     cleared = TPM_SUCCESS /\ enabled = TPM_SUCCESS /\ activated = TPM_SUCCESS).
Proof.
  intros cfg env w Hgen run cleared enabled activated.
  subst run activated enabled cleared.
  unfold tpm_clear_and_reenable, bind, tlcl_force_clear, tlcl_set_enable,
    tlcl_set_deactivated, tlcl, printk, ret.
  rewrite Hgen. cbn [issue fst snd calls console].
  destruct (tlcl_reply env (calls w) Tlcl_force_clear) eqn:Hclear;
    cbn [failed fst snd calls console];
    try (split; [reflexivity | split; [reflexivity |]];
         split; [discriminate | intros (H1 & _ & _); discriminate H1]).
  destruct (tlcl_reply env (calls w ++ [Tlcl_force_clear]) Tlcl_set_enable)
    eqn:Henable;
    cbn [failed fst snd calls console]; rewrite <- ?app_assoc; cbn [app];
    try (split; [reflexivity | split; [reflexivity |]];
         split; [discriminate | intros (_ & H2 & _); discriminate H2]).
  destruct (tlcl_reply env (calls w ++ [Tlcl_force_clear; Tlcl_set_enable])
              (Tlcl_set_deactivated 0)) eqn:Hactive;
    cbn [failed fst snd calls console];
    (split; [reflexivity | split; [reflexivity |]]);
    try (split; [discriminate | intros (_ & _ & H3); discriminate H3]).
  split; [intros _; repeat split | reflexivity].
Qed.

Lemma clear_and_reenable_sequence_witness :
  let env := scripted enable_refused (0, 0) (fun _ => false) in
  let run := tpm_clear_and_reenable tpm1_board env initial_world in
  calls (snd run) = [] ++ [Tlcl_force_clear; Tlcl_set_enable] /\
  fst run = TPM_E_DEVICE 1 /\
  (fst run = TPM_SUCCESS <->
   TPM_SUCCESS = TPM_SUCCESS /\ TPM_E_DEVICE 1 = TPM_SUCCESS /\
   TPM_SUCCESS = TPM_SUCCESS).
Proof.
  apply (clear_and_reenable_sequence tpm1_board
           (scripted enable_refused (0, 0) (fun _ => false)) initial_world).
  reflexivity.
Defined.

(** X13.  Without [CONFIG(TPM1)], [tpm_clear_and_reenable] issues the
    force-clear and nothing else - no enable and no toggle - and returns
    the status of the force-clear. *)
Theorem clear_without_tpm1 :
  forall cfg env w,
    CONFIG_TPM1 cfg = false ->
    let run := tpm_clear_and_reenable cfg env w in
    let cleared := tlcl_reply env (calls w) Tlcl_force_clear in
    calls (snd run) = calls w ++ [Tlcl_force_clear] /\
    fst run = cleared.
Proof.
  intros cfg env w Hgen run cleared. subst run cleared.
  unfold tpm_clear_and_reenable, bind, tlcl_force_clear, tlcl, printk, ret.
  rewrite Hgen. cbn [issue fst snd calls console].
  destruct (tlcl_reply env (calls w) Tlcl_force_clear);
    cbn [failed fst snd calls console]; split; reflexivity.
Qed.

Lemma clear_without_tpm1_witness :
  calls (snd (tpm_clear_and_reenable tpm2_board cooperative initial_world))
  = [] ++ [Tlcl_force_clear] /\
  fst (tpm_clear_and_reenable tpm2_board cooperative initial_world)
  = TPM_SUCCESS.
Proof.
  apply (clear_without_tpm1 tpm2_board cooperative initial_world).
  reflexivity.
Defined.

(** ** The PCR extension service, for any call *)

(** X14.  [tpm_extend_pcr] returns [TPM_SUCCESS] only when the digest was
    present, the selector was accepted, and the one extend command it issued
    - carrying that digest and that length - was answered with
    [TPM_SUCCESS]. *)
Theorem extend_pcr_success_sound :
  forall cfg env pcr digest_algo digest digest_len name w,
    fst (tpm_extend_pcr cfg env pcr digest_algo digest digest_len name w)
    = TPM_SUCCESS ->
    exists bytes algorithm,
      digest = Some bytes /\
      select_algorithm cfg digest_algo = Some algorithm /\
      tlcl_reply env (calls w) (Tlcl_extend pcr algorithm bytes digest_len)
      = TPM_SUCCESS /\
      calls (snd (tpm_extend_pcr cfg env pcr digest_algo digest digest_len
                    name w))
      = calls w ++ Tlcl_extend pcr algorithm bytes digest_len ::
          (if CONFIG_VBOOT_MEASURED_BOOT cfg
           then [Tcpa_log_add_table_entry name pcr digest_algo bytes digest_len]
           else []).
Proof.
  intros cfg env pcr digest_algo digest digest_len name w Hok.
  destruct digest as [bytes |]; [| discriminate Hok].
  destruct (select_algorithm cfg digest_algo) as [algorithm |] eqn:Hsel.
  2: { unfold tpm_extend_pcr in Hok. rewrite Hsel in Hok. discriminate Hok. }
  destruct (extend_pcr_issues cfg env pcr digest_algo bytes digest_len name w
              algorithm Hsel) as (Hres & Hcalls & _).
  rewrite Hok in Hres. symmetry in Hres.
  exists bytes, algorithm. rewrite Hcalls. unfold logged. rewrite Hres.
  repeat split.
Qed.

Lemma extend_pcr_success_sound_witness :
  exists bytes algorithm,
    Some [Byte.x2a] = Some bytes /\
    select_algorithm tpm2_board VB2_HASH_SHA256 = Some algorithm /\
    tlcl_reply cooperative (calls initial_world)
      (Tlcl_extend 3 algorithm bytes 32) = TPM_SUCCESS /\
    calls (snd (tpm_extend_pcr tpm2_board cooperative 3 VB2_HASH_SHA256
                  (Some [Byte.x2a]) 32 (Some "FMAP"%string) initial_world))
    = calls initial_world ++ Tlcl_extend 3 algorithm bytes 32 ::
        [Tcpa_log_add_table_entry (Some "FMAP"%string) 3 VB2_HASH_SHA256 bytes 32].
Proof.
  apply (extend_pcr_success_sound tpm2_board cooperative 3 VB2_HASH_SHA256
           (Some [Byte.x2a]) 32 (Some "FMAP"%string) initial_world).
  reflexivity.
Defined.

(** X15.  Whatever the arguments and the device, [tpm_extend_pcr] issues at
    most one extend command, and writes a log entry only after that command
    succeeded and only under [CONFIG(VBOOT_MEASURED_BOOT)]; a call that did
    not return [TPM_SUCCESS] leaves the log untouched. *)
Theorem extend_pcr_logs_only_success :
  forall cfg env pcr digest_algo digest digest_len name w,
    let run := tpm_extend_pcr cfg env pcr digest_algo digest digest_len name w in
    exists issued,
      calls (snd run) = calls w ++ issued /\
      (List.length (filter is_extend issued) <= 1)%nat /\
      (List.length (filter is_log_entry issued) <= 1)%nat /\
      (filter is_log_entry issued <> [] ->
       fst run = TPM_SUCCESS /\ CONFIG_VBOOT_MEASURED_BOOT cfg = true /\
       filter is_extend issued <> []).
Proof.
  intros cfg env pcr digest_algo digest digest_len name w run. subst run.
  destruct digest as [bytes |].
  2: { exists []. rewrite app_nil_r. cbn [filter List.length].
       repeat split; try lia; try reflexivity; contradiction. }
  destruct (select_algorithm cfg digest_algo) as [algorithm |] eqn:Hsel.
  2: { exists []. unfold tpm_extend_pcr. rewrite Hsel, app_nil_r.
       cbn [filter List.length].
       repeat split; try lia; try reflexivity; contradiction. }
  destruct (extend_pcr_issues cfg env pcr digest_algo bytes digest_len name w
              algorithm Hsel) as (Hres & Hcalls & _).
  eexists. split; [exact Hcalls |]. rewrite Hres. unfold logged.
  destruct (tlcl_reply env (calls w)
              (Tlcl_extend pcr algorithm bytes digest_len));
    cbn [failed]; try destruct (CONFIG_VBOOT_MEASURED_BOOT cfg);
    cbn [filter is_extend is_log_entry List.length];
    repeat split; try lia; try reflexivity; try discriminate; contradiction.
Qed.

(** ** Region measurement, for any collaborators *)

Section Chunk_loop_any.

Variable cfg : config.
Variable env : collaborators.
Variable rdev : region_device.

(** A [return] inside the loop carries one of two statuses. *)
Lemma hash_chunks_abort_status :
  forall fuel offset ctx w result w',
    hash_chunks cfg env fuel rdev offset ctx w = Some (inl result, w') ->
    result = TPM_E_READ_FAILURE \/ result = TPM_E_HASH_ERROR.
Proof.
  induction fuel as [| fuel IH]; intros offset ctx w result w' Hrun.
  - discriminate Hrun.
  - destruct (Z.lt_ge_cases offset (region_device_sz rdev)) as [Hlt | Hge].
    2: { rewrite hash_chunks_done in Hrun by exact Hge. discriminate Hrun. }
    destruct (rdev_reply env (calls w) offset (chunk_len cfg rdev offset))
      eqn:Hread.
    { rewrite hash_chunks_read_fails in Hrun by assumption.
      injection Hrun as <- _. left. reflexivity. }
    destruct (vb2_reply env
                (calls w ++ [Rdev_readat offset (chunk_len cfg rdev offset)])
                (Vb2_digest_extend
                   (rdev_bytes rdev offset
                      (Z.to_nat (chunk_len cfg rdev offset)))
                   (chunk_len cfg rdev offset))) eqn:Hext.
    { rewrite hash_chunks_extend_fails in Hrun by assumption.
      injection Hrun as <- _. right. reflexivity. }
    rewrite hash_chunks_next in Hrun by assumption.
    exact (IH _ _ _ _ _ Hrun).
Qed.

(** Every read of the loop lies inside the region and asks for no more
    than the buffer holds. *)
Lemma hash_chunks_reads_within :
  forall fuel offset ctx w res w',
    0 <= offset ->
    hash_chunks cfg env fuel rdev offset ctx w = Some (res, w') ->
    exists issued,
      calls w' = calls w ++ issued /\
      Forall (read_within (region_device_sz rdev) (HASH_DATA_CHUNK_SIZE cfg))
        issued.
Proof.
  induction fuel as [| fuel IH]; intros offset ctx w res w' Hoff Hrun.
  - discriminate Hrun.
  - destruct (Z.lt_ge_cases offset (region_device_sz rdev)) as [Hlt | Hge].
    2: { rewrite hash_chunks_done in Hrun by exact Hge.
         injection Hrun as _ <-. exists []. rewrite app_nil_r.
         split; [reflexivity | constructor]. }
    assert (Hin : read_within (region_device_sz rdev) (HASH_DATA_CHUNK_SIZE cfg)
                    (Rdev_readat offset (chunk_len cfg rdev offset))).
    { unfold read_within, chunk_len. lia. }
    destruct (rdev_reply env (calls w) offset (chunk_len cfg rdev offset))
      eqn:Hread.
    { rewrite hash_chunks_read_fails in Hrun by assumption.
      injection Hrun as _ <-. eexists. split; [reflexivity |].
      constructor; [exact Hin | constructor]. }
    destruct (vb2_reply env
                (calls w ++ [Rdev_readat offset (chunk_len cfg rdev offset)])
                (Vb2_digest_extend
                   (rdev_bytes rdev offset
                      (Z.to_nat (chunk_len cfg rdev offset)))
                   (chunk_len cfg rdev offset))) eqn:Hext.
    { rewrite hash_chunks_extend_fails in Hrun by assumption.
      injection Hrun as _ <-. eexists. split; [reflexivity |].
      constructor; [exact Hin | constructor; [exact I | constructor]]. }
    rewrite hash_chunks_next in Hrun by assumption.
    apply IH in Hrun.
    2: { unfold next_offset. apply Z.mod_pos_bound. reflexivity. }
    destruct Hrun as (issued & Hcalls & Hall). cbn [calls] in Hcalls.
    exists (Rdev_readat offset (chunk_len cfg rdev offset)
            :: Vb2_digest_extend
                 (rdev_bytes rdev offset (Z.to_nat (chunk_len cfg rdev offset)))
                 (chunk_len cfg rdev offset)
            :: issued).
    rewrite Hcalls, <- app_assoc. split; [reflexivity |].
    constructor; [exact Hin | constructor; [exact I | exact Hall]].
Qed.

(** A loop that ran to its end read the rest of the region along a
    contiguous plan, whatever the collaborators could have answered
    elsewhere. *)
Lemma hash_chunks_finished :
  0 < HASH_DATA_CHUNK_SIZE cfg ->
  region_device_sz rdev < uint32_modulus ->
  forall fuel offset ctx w ctx' w',
    0 <= offset <= region_device_sz rdev ->
    hash_chunks cfg env fuel rdev offset ctx w = Some (inr ctx', w') ->
    exists plan,
      ctx' = {| ctx_alg := ctx_alg ctx;
                ctx_data := ctx_data ctx
                  ++ rdev_bytes rdev offset
                       (Z.to_nat (region_device_sz rdev - offset)) |} /\
      calls w' = calls w ++ read_and_hash rdev plan /\
      contiguous offset plan /\
      Forall (fun r => snd r = Z.min (HASH_DATA_CHUNK_SIZE cfg)
                                 (region_device_sz rdev - fst r)) plan /\
      total_length plan = region_device_sz rdev - offset /\
      plan_bytes rdev plan
      = rdev_bytes rdev offset (Z.to_nat (region_device_sz rdev - offset)).
Proof.
  intros Hchunk Hfit.
  induction fuel as [| fuel IH]; intros offset ctx w ctx' w' Hoff Hrun.
  - discriminate Hrun.
  - destruct (Z.lt_ge_cases offset (region_device_sz rdev)) as [Hlt | Hge].
    2: { rewrite hash_chunks_done in Hrun by exact Hge.
         injection Hrun as <- <-. exists [].
         replace (Z.to_nat (region_device_sz rdev - offset)) with 0%nat by lia.
         cbn [rdev_bytes read_and_hash flat_map contiguous total_length
              fold_right plan_bytes].
         rewrite !app_nil_r. destruct ctx. cbn [ctx_alg ctx_data].
         repeat split; try reflexivity; try lia. constructor. }
    destruct (chunk_advances cfg rdev offset Hchunk Hfit
                (conj (proj1 Hoff) Hlt)) as (Hlen & Hmin & Hnext & Hmove).
    destruct (rdev_reply env (calls w) offset (chunk_len cfg rdev offset))
      eqn:Hread.
    { rewrite hash_chunks_read_fails in Hrun by assumption.
      discriminate Hrun. }
    destruct (vb2_reply env
                (calls w ++ [Rdev_readat offset (chunk_len cfg rdev offset)])
                (Vb2_digest_extend
                   (rdev_bytes rdev offset
                      (Z.to_nat (chunk_len cfg rdev offset)))
                   (chunk_len cfg rdev offset))) eqn:Hext.
    { rewrite hash_chunks_extend_fails in Hrun by assumption.
      discriminate Hrun. }
    rewrite hash_chunks_next in Hrun by assumption.
    set (len := chunk_len cfg rdev offset) in *.
    rewrite Hnext in Hrun.
    apply IH in Hrun; [| lia].
    destruct Hrun as (plan & Hctx & Hcalls & Hcont & Hall & Hsum & Hbytes).
    cbn [ctx_alg ctx_data calls] in Hctx, Hcalls.
    exists ((offset, len) :: plan).
    cbn [read_and_hash flat_map fst snd contiguous total_length fold_right
         plan_bytes].
    fold (read_and_hash rdev plan). fold (plan_bytes rdev plan).
    fold (total_length plan).
    assert (Hjoin : rdev_bytes rdev offset
                      (Z.to_nat (region_device_sz rdev - offset))
                    = rdev_bytes rdev offset (Z.to_nat len)
                        ++ rdev_bytes rdev (offset + len)
                             (Z.to_nat (region_device_sz rdev - (offset + len)))).
    { replace (Z.to_nat (region_device_sz rdev - offset))
        with (Z.to_nat len
              + Z.to_nat (region_device_sz rdev - (offset + len)))%nat by lia.
      rewrite rdev_bytes_app. do 2 f_equal. lia. }
    rewrite Hctx, Hcalls, Hjoin, Hbytes, Hsum, <- !app_assoc.
    repeat split; try reflexivity; try lia; try assumption.
    constructor; [exact Hmin | exact Hall].
Qed.

End Chunk_loop_any.

(** The ways through [tpm_measure_region] once both pointers are present:
    it stops before the loop, inside the loop, or goes through lines
    292-302. *)
Lemma measure_region_cases :
  forall cfg env fuel rdev pcr rname w out w',
    tpm_measure_region cfg env fuel (Some rdev) pcr (Some rname) w
    = Some (out, w') ->
    let hash_alg := measure_hash_alg cfg in
    let w0 := {| calls := calls w ++ [Tlcl_lib_init; Vb2_digest_init hash_alg];
                 console := console w |} in
    let ctx0 := {| ctx_alg := hash_alg; ctx_data := [] |} in
    (calls w' = calls w ++ [Tlcl_lib_init] /\ out <> Returned TPM_SUCCESS) \/
    (calls w' = calls w0 /\ out = Returned TPM_E_HASH_ERROR) \/
    (exists result,
       hash_chunks cfg env fuel rdev 0 ctx0 w0 = Some (inl result, w') /\
       out = Returned result) \/
    (exists ctx w1,
       hash_chunks cfg env fuel rdev 0 ctx0 w0 = Some (inr ctx, w1) /\
       out = Returned (fst (finalize_and_extend cfg env ctx pcr (Some rname) w1)) /\
       w' = snd (finalize_and_extend cfg env ctx pcr (Some rname) w1)).
Proof.
  intros cfg env fuel rdev pcr rname w out w' Hrun hash_alg w0 ctx0.
  subst ctx0 w0 hash_alg.
  unfold tpm_measure_region, tlcl_lib_init, tlcl in Hrun.
  cbn [issue snd] in Hrun.
  destruct (tlcl_reply env (calls w) Tlcl_lib_init) eqn:Hinit;
    cbn [failed] in Hrun;
    try (cbn [printk] in Hrun; injection Hrun as <- <-; left;
         split; [reflexivity | discriminate]).
  destruct (TPM_PCR_MAX_LEN cfg <? measure_digest_len cfg env).
  { injection Hrun as <- <-. left. split; [reflexivity | discriminate]. }
  unfold vb2_digest_init in Hrun. cbn [issue snd calls console] in Hrun.
  rewrite <- app_assoc in Hrun. cbn [app] in Hrun.
  destruct (vb2_reply env (calls w ++ [Tlcl_lib_init])
              (Vb2_digest_init (measure_hash_alg cfg))).
  { cbn [printk] in Hrun. injection Hrun as <- <-. right. left.
    split; reflexivity. }
  match type of Hrun with
  | match ?loop with _ => _ end = _ =>
      destruct loop as [[[result | ctx] w1] |]
  end; [| | discriminate Hrun].
  - injection Hrun as <- <-. right. right. left. exists result.
    split; reflexivity.
  - right. right. right. exists ctx, w1.
    destruct (finalize_and_extend cfg env ctx pcr (Some rname) w1)
      as [result w2].
    injection Hrun as <- <-. repeat split.
Qed.

(** Lines 292-302 when the hash cannot be finalized. *)
Lemma finalize_and_extend_fails :
  forall cfg env ctx pcr rname w,
    vb2_reply env (calls w) (Vb2_digest_finalize (measure_digest_len cfg env))
    = true ->
    fst (finalize_and_extend cfg env ctx pcr rname w) = TPM_E_HASH_ERROR /\
    calls (snd (finalize_and_extend cfg env ctx pcr rname w))
    = calls w ++ [Vb2_digest_finalize (measure_digest_len cfg env)].
Proof.
  intros cfg env ctx pcr rname w Hfin.
  unfold finalize_and_extend, bind, vb2_digest_finalize.
  rewrite Hfin. split; reflexivity.
Qed.

Lemma no_read_within :
  forall size chunk issued,
    filter is_read issued = [] -> Forall (read_within size chunk) issued.
Proof.
  intros size chunk issued.
  induction issued as [| c rest IH]; intro Hnone; [constructor |].
  destruct c; cbn [filter is_read] in Hnone; try discriminate Hnone;
    (constructor; [exact I | exact (IH Hnone)]).
Qed.

(** X16.  A NULL region or a NULL name is an argument error, answered
    before anything is touched: [tpm_measure_region] returns
    [TPM_E_INVALID_ARG] and issues no call, not even the library
    initialisation. *)
Theorem measure_region_null_argument :
  forall cfg env fuel rdev pcr rname w,
    rdev = None \/ rname = None ->
    tpm_measure_region cfg env fuel rdev pcr rname w
    = Some (Returned TPM_E_INVALID_ARG, w).
Proof.
  intros cfg env fuel rdev pcr rname w [-> | ->].
  - reflexivity.
  - destruct rdev; reflexivity.
Qed.

Lemma measure_region_null_argument_witness :
  tpm_measure_region tpm1_board cooperative 0 (Some (counting_region 10)) 2 None
    initial_world
  = Some (Returned TPM_E_INVALID_ARG, initial_world).
Proof.
  apply (measure_region_null_argument tpm1_board cooperative 0
           (Some (counting_region 10)) 2 None initial_world).
  right. reflexivity.
Defined.

(** X17.  When the library initialisation fails, [tpm_measure_region]
    returns its status at once: no hash is set up and the region is not
    read. *)
Theorem measure_region_init_failure :
  forall cfg env fuel rdev pcr rname w,
    failed (tlcl_reply env (calls w) Tlcl_lib_init) = true ->
    exists w',
      tpm_measure_region cfg env fuel (Some rdev) pcr (Some rname) w
      = Some (Returned (tlcl_reply env (calls w) Tlcl_lib_init), w') /\
      calls w' = calls w ++ [Tlcl_lib_init].
Proof.
  intros cfg env fuel rdev pcr rname w Hinit.
  unfold tpm_measure_region, tlcl_lib_init, tlcl. cbn [issue snd].
  rewrite Hinit. cbn [printk]. eexists. split; reflexivity.
Qed.

Lemma measure_region_init_failure_witness :
  let env := scripted (fun _ => TPM_E_IOERROR) (0, 0) (fun _ => false) in
  exists w',
    tpm_measure_region tpm1_board env 0 (Some (counting_region 10)) 2
      (Some "COREBOOT"%string) initial_world
    = Some (Returned TPM_E_IOERROR, w') /\
    calls w' = [] ++ [Tlcl_lib_init].
Proof.
  apply (measure_region_init_failure tpm1_board
           (scripted (fun _ => TPM_E_IOERROR) (0, 0) (fun _ => false)) 0
           (counting_region 10) 2 "COREBOOT"%string initial_world).
  reflexivity.
Defined.

(** X18.  Whenever [tpm_measure_region] returns, every read it issued
    starts inside the region, ends inside the region and asks for at most
    [HASH_DATA_CHUNK_SIZE] bytes, the size of the buffer it reads into -
    for every region size and whatever the collaborators answer. *)
Theorem measure_region_reads_within :
  forall cfg env fuel rdev pcr rname w out w',
    tpm_measure_region cfg env fuel (Some rdev) pcr rname w = Some (out, w') ->
    exists issued,
      calls w' = calls w ++ issued /\
      Forall (read_within (region_device_sz rdev) (HASH_DATA_CHUNK_SIZE cfg))
        issued.
Proof.
  intros cfg env fuel rdev pcr rname w out w' Hrun.
  destruct rname as [rname |].
  2: { injection Hrun as _ <-. exists []. rewrite app_nil_r.
       split; [reflexivity | constructor]. }
  destruct (measure_region_cases cfg env fuel rdev pcr rname w out w' Hrun)
    as [[Hcalls _] | [[Hcalls _] | [(result & Hloop & _)
                                    | (ctx & w1 & Hloop & _ & Hw')]]].
  - eexists. split; [exact Hcalls |]. apply no_read_within. reflexivity.
  - eexists. split; [exact Hcalls |]. apply no_read_within. reflexivity.
  - apply hash_chunks_reads_within in Hloop; [| lia].
    destruct Hloop as (issued & Hcalls & Hall). cbn [calls] in Hcalls.
    exists ([Tlcl_lib_init; Vb2_digest_init (measure_hash_alg cfg)] ++ issued).
    rewrite Hcalls, <- app_assoc. split; [reflexivity |].
    apply Forall_app. split; [| exact Hall].
    apply no_read_within. reflexivity.
  - apply hash_chunks_reads_within in Hloop; [| lia].
    destruct Hloop as (issued & Hcalls & Hall). cbn [calls] in Hcalls.
    destruct (finalize_and_extend_trace cfg env ctx pcr (Some rname) w1)
      as (tail & Htail & Hquiet).
    exists (([Tlcl_lib_init; Vb2_digest_init (measure_hash_alg cfg)] ++ issued)
            ++ Vb2_digest_finalize (measure_digest_len cfg env) :: tail).
    rewrite Hw', Htail, Hcalls, <- !app_assoc. split; [reflexivity |].
    apply Forall_app. split; [apply no_read_within; reflexivity |].
    apply Forall_app. split; [exact Hall |].
    apply no_read_within. cbn [filter is_read]. exact Hquiet.
Qed.

Lemma measure_region_reads_within_witness :
  exists issued,
    [Tlcl_lib_init; Vb2_digest_init VB2_HASH_SHA1; Rdev_readat 0 4;
     Vb2_digest_extend [Byte.x00; Byte.x01; Byte.x02; Byte.x03] 4;
     Rdev_readat 4 4]
    = [] ++ issued /\
    Forall (read_within 10 4) issued.
Proof.
  apply (measure_region_reads_within tpm1_board bad_at_4 4
           (counting_region 10) 2 (Some "COREBOOT"%string) initial_world
           (Returned TPM_E_READ_FAILURE)
           {| calls :=
                [Tlcl_lib_init; Vb2_digest_init VB2_HASH_SHA1; Rdev_readat 0 4;
                 Vb2_digest_extend [Byte.x00; Byte.x01; Byte.x02; Byte.x03] 4;
                 Rdev_readat 4 4];
              console :=
                [(BIOS_ERR, "TPM: Not able to read region %s.\n"%string)] |}).
  vm_compute. reflexivity.
Defined.

(** X19.  When the hash context cannot be initialised,
    [tpm_measure_region] returns [TPM_E_HASH_ERROR] and the region is never
    read: the only calls are the two initialisations. *)
Theorem measure_region_hash_init_failure :
  forall cfg env fuel rdev pcr rname w,
    tlcl_reply env (calls w) Tlcl_lib_init = TPM_SUCCESS ->
    measure_digest_len cfg env <= TPM_PCR_MAX_LEN cfg ->
    vb2_reply env (calls w ++ [Tlcl_lib_init])
      (Vb2_digest_init (measure_hash_alg cfg)) = true ->
    exists w',
      tpm_measure_region cfg env fuel (Some rdev) pcr (Some rname) w
      = Some (Returned TPM_E_HASH_ERROR, w') /\
      calls w'
      = calls w ++ [Tlcl_lib_init; Vb2_digest_init (measure_hash_alg cfg)].
Proof.
  intros cfg env fuel rdev pcr rname w Hinit Hassert Hctx.
  unfold tpm_measure_region, tlcl_lib_init, tlcl. cbn [issue snd].
  rewrite Hinit. cbn [failed].
  destruct (Z.ltb_spec (TPM_PCR_MAX_LEN cfg) (measure_digest_len cfg env))
    as [Hlt | _]; [lia |].
  unfold vb2_digest_init. cbn [issue snd calls console]. rewrite Hctx.
  cbn [printk]. eexists. split; [reflexivity |].
  cbn [calls]. rewrite <- app_assoc. reflexivity.
Qed.

(** Collaborators whose hash cannot be initialised. *)
Lemma measure_region_hash_init_failure_witness :
  let env := {|
    tlcl_reply := fun _ _ => TPM_SUCCESS;
    tlcl_flags := fun _ => (0, 0);
    rdev_reply := fun _ _ _ => false;
    vb2_reply := fun _ c => match c with Vb2_digest_init _ => true | _ => false end;
    vb2_digest_size := sample_digest_size;
    vb2_hash := fun _ data => data |} in
  exists w',
    tpm_measure_region tpm2_board env 0 (Some (counting_region 10)) 2
      (Some "COREBOOT"%string) initial_world
    = Some (Returned TPM_E_HASH_ERROR, w') /\
    calls w' = [] ++ [Tlcl_lib_init; Vb2_digest_init VB2_HASH_SHA256].
Proof.
  apply (measure_region_hash_init_failure tpm2_board
           {| tlcl_reply := fun _ _ => TPM_SUCCESS;
              tlcl_flags := fun _ => (0, 0);
              rdev_reply := fun _ _ _ => false;
              vb2_reply := fun _ c =>
                match c with Vb2_digest_init _ => true | _ => false end;
              vb2_digest_size := sample_digest_size;
              vb2_hash := fun _ data => data |}
           0 (counting_region 10) 2 "COREBOOT"%string initial_world).
  - reflexivity.
  - discriminate.
  - reflexivity.
Defined.

(** X20.  Whatever the collaborators answer, a measurement that returned
    [TPM_SUCCESS], or that issued an extend command at all, read the whole
    region along a contiguous plan starting at offset 0 and issued exactly
    one extend command, whose digest is the hash of all the bytes of the
    region in order: a PCR is never extended with the hash of a part of the
    region. *)
Theorem measure_region_extend_sound :
  forall cfg env fuel rdev pcr rname w out w' issued,
    0 < HASH_DATA_CHUNK_SIZE cfg ->
    0 <= region_device_sz rdev < uint32_modulus ->
    tpm_measure_region cfg env fuel (Some rdev) pcr (Some rname) w
    = Some (out, w') ->
    calls w' = calls w ++ issued ->
    out = Returned TPM_SUCCESS \/ filter is_extend issued <> [] ->
    let size := region_device_sz rdev in
    let hash_alg := measure_hash_alg cfg in
    let digest_len := measure_digest_len cfg env in
    let digest := vb2_hash env hash_alg (rdev_bytes rdev 0 (Z.to_nat size)) in
    let cmd := Tlcl_extend pcr (measure_algorithm cfg) digest digest_len in
    exists plan result,
      out = Returned result /\
      issued = [Tlcl_lib_init; Vb2_digest_init hash_alg]
                 ++ read_and_hash rdev plan
                 ++ [Vb2_digest_finalize digest_len; cmd]
                 ++ logged cfg result (Some rname) pcr hash_alg digest digest_len /\
      contiguous 0 plan /\
      total_length plan = size /\
      plan_bytes rdev plan = rdev_bytes rdev 0 (Z.to_nat size) /\
      filter is_extend issued = [cmd].
Proof.
  intros cfg env fuel rdev pcr rname w out w' issued Hchunk Hfit Hrun Hissued
    Hwhy size hash_alg digest_len digest cmd.
  subst cmd digest digest_len hash_alg size.
  destruct (measure_region_cases cfg env fuel rdev pcr rname w out w' Hrun)
    as [[Hcalls Hout] | [[Hcalls Hout] | [(result & Hloop & Hout)
                                          | (ctx & w1 & Hloop & Hout & Hw')]]].
  - rewrite Hissued in Hcalls. apply app_inv_head in Hcalls. subst issued.
    destruct Hwhy as [Hok | Hext]; [contradiction | now contradiction Hext].
  - cbn [calls] in Hcalls. rewrite Hissued in Hcalls.
    apply app_inv_head in Hcalls. subst issued out.
    destruct Hwhy as [Hok | Hext]; [discriminate Hok | now contradiction Hext].
  - destruct (hash_chunks_abort_status cfg env rdev _ _ _ _ _ _ Hloop)
      as [-> | ->];
      apply hash_chunks_trace in Hloop;
      destruct Hloop as (loop & Hcalls & _ & Hnone & _);
      cbn [calls] in Hcalls; rewrite Hissued, <- app_assoc in Hcalls;
      apply app_inv_head in Hcalls; subst issued out;
      (destruct Hwhy as [Hok | Hext]; [discriminate Hok |]);
      cbn [app filter is_extend] in Hext; rewrite Hnone in Hext;
      now contradiction Hext.
  - apply (hash_chunks_finished cfg env rdev Hchunk (proj2 Hfit)) in Hloop;
      [| lia].
    destruct Hloop as (plan & -> & Hcalls & Hcont & _ & Hsum & Hbytes).
    cbn [ctx_alg ctx_data calls app] in Hcalls, Hw', Hout.
    rewrite Z.sub_0_r in Hsum, Hbytes, Hw', Hout.
    destruct (read_and_hash_reads rdev plan) as [_ Hplan].
    destruct (vb2_reply env (calls w1)
                (Vb2_digest_finalize (measure_digest_len cfg env))) eqn:Hfin.
    + match type of Hw' with
      | _ = snd (finalize_and_extend cfg env ?c pcr (Some rname) w1) =>
          destruct (finalize_and_extend_fails cfg env c pcr (Some rname) w1 Hfin)
            as [Hres Htail]
      end.
      rewrite Hres in Hout. rewrite Hw', Htail, Hcalls, <- !app_assoc in Hissued.
      apply app_inv_head in Hissued. subst issued out.
      destruct Hwhy as [Hok | Hext]; [discriminate Hok |].
      cbn [app filter is_extend] in Hext.
      rewrite filter_app, Hplan in Hext. now contradiction Hext.
    + match type of Hw' with
      | _ = snd (finalize_and_extend cfg env ?c pcr (Some rname) w1) =>
          destruct (finalize_and_extend_ok cfg env c pcr (Some rname) w1
                      eq_refl Hfin) as [Hres Htail]
      end.
      rewrite <- Hres in Htail. clear Hres.
      rewrite Hw', Htail, Hcalls, <- !app_assoc in Hissued.
      apply app_inv_head in Hissued.
      cbn [ctx_data] in Hissued.
      match type of Hissued with
      | context [logged cfg ?r ?n ?p ?a ?d ?l] =>
          destruct (logged_no_read_no_extend cfg r n p a d l) as (_ & Hlog & _);
          exists plan, r
      end.
      split; [exact Hout |].
      split; [symmetry; exact Hissued |].
      split; [exact Hcont | split; [exact Hsum | split; [exact Hbytes |]]].
      rewrite <- Hissued.
      cbn [app filter is_extend]. rewrite !filter_app, Hplan.
      cbn [app filter is_extend]. rewrite Hlog. reflexivity.
Qed.

Lemma measure_region_extend_sound_witness :
  let rdev := counting_region 10 in
  let digest := vb2_hash cooperative VB2_HASH_SHA256 (rdev_bytes rdev 0 10) in
  let cmd := Tlcl_extend 2 11 digest 32 in
  exists plan result,
    Returned TPM_SUCCESS = Returned result /\
    [Tlcl_lib_init; Vb2_digest_init VB2_HASH_SHA256;
     Rdev_readat 0 4;
     Vb2_digest_extend [Byte.x00; Byte.x01; Byte.x02; Byte.x03] 4;
     Rdev_readat 4 4;
     Vb2_digest_extend [Byte.x04; Byte.x05; Byte.x06; Byte.x07] 4;
     Rdev_readat 8 2;
     Vb2_digest_extend [Byte.x08; Byte.x09] 2;
     Vb2_digest_finalize 32; cmd;
     Tcpa_log_add_table_entry (Some "COREBOOT"%string) 2 VB2_HASH_SHA256
       digest 32]
    = [Tlcl_lib_init; Vb2_digest_init VB2_HASH_SHA256]
        ++ read_and_hash rdev plan
        ++ [Vb2_digest_finalize 32; cmd]
        ++ logged tpm2_board result (Some "COREBOOT"%string) 2 VB2_HASH_SHA256
             digest 32 /\
    contiguous 0 plan /\
    total_length plan = 10 /\
    plan_bytes rdev plan = rdev_bytes rdev 0 10 /\
    filter is_extend
      [Tlcl_lib_init; Vb2_digest_init VB2_HASH_SHA256;
       Rdev_readat 0 4;
       Vb2_digest_extend [Byte.x00; Byte.x01; Byte.x02; Byte.x03] 4;
       Rdev_readat 4 4;
       Vb2_digest_extend [Byte.x04; Byte.x05; Byte.x06; Byte.x07] 4;
       Rdev_readat 8 2;
       Vb2_digest_extend [Byte.x08; Byte.x09] 2;
       Vb2_digest_finalize 32; cmd;
       Tcpa_log_add_table_entry (Some "COREBOOT"%string) 2 VB2_HASH_SHA256
         digest 32]
    = [cmd].
Proof.
  apply (measure_region_extend_sound tpm2_board cooperative 4
           (counting_region 10) 2 "COREBOOT"%string initial_world
           (Returned TPM_SUCCESS)
           {| calls :=
                [Tlcl_lib_init; Vb2_digest_init VB2_HASH_SHA256;
                 Rdev_readat 0 4;
                 Vb2_digest_extend [Byte.x00; Byte.x01; Byte.x02; Byte.x03] 4;
                 Rdev_readat 4 4;
                 Vb2_digest_extend [Byte.x04; Byte.x05; Byte.x06; Byte.x07] 4;
                 Rdev_readat 8 2;
                 Vb2_digest_extend [Byte.x08; Byte.x09] 2;
                 Vb2_digest_finalize 32;
                 Tlcl_extend 2 11
                   (vb2_hash cooperative VB2_HASH_SHA256
                      (rdev_bytes (counting_region 10) 0 10)) 32;
                 Tcpa_log_add_table_entry (Some "COREBOOT"%string) 2
                   VB2_HASH_SHA256
                   (vb2_hash cooperative VB2_HASH_SHA256
                      (rdev_bytes (counting_region 10) 0 10)) 32];
              console :=
                [(BIOS_DEBUG, "TPM: Measured %s into PCR %d\n"%string)] |}).
  - reflexivity.
  - split; [discriminate | reflexivity].
  - vm_compute. reflexivity.
  - reflexivity.
  - left. reflexivity.
Defined.

(** ** The order of a cold boot *)

Lemma signal_is_post_code :
  forall cfg result issued,
    forallb reconciler_call issued = true ->
    forallb (fun c => reconciler_call c || is_post_code c)
      (issued ++ failure_signal cfg result) = true.
Proof.
  intros cfg result issued Hrec. rewrite forallb_app. apply andb_true_iff. split.
  - clear - Hrec. induction issued as [| c rest IH]; [reflexivity |].
    cbn [forallb] in *. apply andb_true_iff in Hrec. destruct Hrec as [Hc Hrest].
    rewrite Hc, (IH Hrest). reflexivity.
  - unfold failure_signal. destruct (failed result); reflexivity.
Qed.

(** X21.  On a cold boot the commands come in the order initialisation,
    startup, physical presence, reconciler: every physical-presence
    command follows the startup command, every reconciler command follows
    all physical-presence commands, and a reconciler command is issued only
    after the startup status was accepted and a physical-presence assertion
    succeeded. *)
Theorem setup_cold_boot_order :
  forall cfg env s3flag w,
    s3flag = 0 ->
    tlcl_reply env (calls w) Tlcl_lib_init = TPM_SUCCESS ->
    let h := calls w ++ [Tlcl_lib_init; Tlcl_startup] in
    exists presence rest,
      calls (snd (tpm_setup cfg env s3flag w)) = h ++ presence ++ rest /\
      forallb (fun c => is_assert_presence c || is_presence_cmd_enable c)
        presence = true /\
      forallb (fun c => reconciler_call c || is_post_code c) rest = true /\
      (filter reconciler_call rest <> [] ->
       startup_accepted cfg
         (tlcl_reply env (calls w ++ [Tlcl_lib_init]) Tlcl_startup) = true /\
       exists before,
         presence = before ++ [Tlcl_assert_physical_presence] /\
         tlcl_reply env (h ++ before) Tlcl_assert_physical_presence
         = TPM_SUCCESS).
Proof.
  intros cfg env s3flag w Hs3 Hinit h. subst h.
  rewrite (setup_enters_cold_boot cfg env s3flag w Hs3 Hinit).
  match goal with
  | |- context [setup_cold_boot cfg env ?w1] =>
      pose proof (setup_cold_boot_paths cfg env w1) as Hcold
  end.
  cbv zeta in Hcold. cbn [calls] in Hcold.
  assert (Hsignal : forall result,
             filter reconciler_call (failure_signal cfg result) = []).
  { intro result. unfold failure_signal. destruct (failed result); reflexivity. }
  destruct (startup_accepted cfg
              (tlcl_reply env (calls w ++ [Tlcl_lib_init]) Tlcl_startup)).
  2: { destruct Hcold as [_ ->]. exists [].
       match goal with
       | |- context [failure_signal cfg ?r] => exists (failure_signal cfg r)
       end.
       rewrite <- !app_assoc. split; [reflexivity |].
       split; [reflexivity |]. split.
       - apply (signal_is_post_code cfg _ []). reflexivity.
       - intro Hsome. rewrite Hsignal in Hsome. now contradiction Hsome. }
  destruct Hcold as (w1 & Hw1 & ->).
  rewrite <- app_assoc in Hw1. cbn [app] in Hw1.
  pose proof (setup_presence_paths cfg env w1) as Hpaths.
  cbv zeta in Hpaths. rewrite Hw1 in Hpaths.
  destruct (failed (tlcl_reply env
                      (calls w ++ [Tlcl_lib_init; Tlcl_startup])
                      Tlcl_assert_physical_presence)) eqn:Hfirst.
  - destruct (failed (tlcl_reply env
                        ((calls w ++ [Tlcl_lib_init; Tlcl_startup])
                           ++ [Tlcl_assert_physical_presence])
                        Tlcl_physical_presence_cmd_enable)).
    { destruct Hpaths as [_ ->].
      exists [Tlcl_assert_physical_presence; Tlcl_physical_presence_cmd_enable].
      match goal with
      | |- context [failure_signal cfg ?r] => exists (failure_signal cfg r)
      end.
      rewrite <- !app_assoc. split; [reflexivity |].
      split; [reflexivity |]. split.
      - apply (signal_is_post_code cfg _ []). reflexivity.
      - intro Hsome. rewrite Hsignal in Hsome. now contradiction Hsome. }
    destruct (failed (tlcl_reply env
                        (((calls w ++ [Tlcl_lib_init; Tlcl_startup])
                            ++ [Tlcl_assert_physical_presence])
                           ++ [Tlcl_physical_presence_cmd_enable])
                        Tlcl_assert_physical_presence)) eqn:Hretry.
    { destruct Hpaths as [_ ->].
      exists [Tlcl_assert_physical_presence; Tlcl_physical_presence_cmd_enable;
              Tlcl_assert_physical_presence].
      match goal with
      | |- context [failure_signal cfg ?r] => exists (failure_signal cfg r)
      end.
      rewrite <- !app_assoc. split; [reflexivity |].
      split; [reflexivity |]. split.
      - apply (signal_is_post_code cfg _ []). reflexivity.
      - intro Hsome. rewrite Hsignal in Hsome. now contradiction Hsome. }
    destruct Hpaths as (w2 & Hw2 & ->).
    destruct (setup_finish_trace cfg env w2) as (issued & -> & Hrec & _).
    exists [Tlcl_assert_physical_presence; Tlcl_physical_presence_cmd_enable;
            Tlcl_assert_physical_presence].
    match goal with
    | |- context [failure_signal cfg ?r] =>
        exists (issued ++ failure_signal cfg r)
    end.
    rewrite Hw2, <- !app_assoc. split; [reflexivity |].
    split; [reflexivity |]. split.
    + apply signal_is_post_code. exact Hrec.
    + intros _. split; [reflexivity |].
      exists [Tlcl_assert_physical_presence; Tlcl_physical_presence_cmd_enable].
      split; [reflexivity |].
      rewrite <- !app_assoc in Hretry. cbn [app] in Hretry.
      rewrite <- !app_assoc. cbn [app].
      apply failed_false. exact Hretry.
  - destruct Hpaths as (w2 & Hw2 & ->).
    destruct (setup_finish_trace cfg env w2) as (issued & -> & Hrec & _).
    exists [Tlcl_assert_physical_presence].
    match goal with
    | |- context [failure_signal cfg ?r] =>
        exists (issued ++ failure_signal cfg r)
    end.
    rewrite Hw2, <- !app_assoc. split; [reflexivity |].
    split; [reflexivity |]. split.
    + apply signal_is_post_code. exact Hrec.
    + intros _. split; [reflexivity |]. exists []. split; [reflexivity |].
      rewrite app_nil_r. apply failed_false. exact Hfirst.
Qed.

Lemma setup_cold_boot_order_witness :
  let h := [] ++ [Tlcl_lib_init; Tlcl_startup] in
  exists presence rest,
    calls (snd (tpm_setup tpm1_board cooperative 0 initial_world))
    = h ++ presence ++ rest /\
    forallb (fun c => is_assert_presence c || is_presence_cmd_enable c)
      presence = true /\
    forallb (fun c => reconciler_call c || is_post_code c) rest = true /\
    (filter reconciler_call rest <> [] ->
     true = true /\
     exists before,
       presence = before ++ [Tlcl_assert_physical_presence] /\
       tlcl_reply cooperative (h ++ before) Tlcl_assert_physical_presence
       = TPM_SUCCESS).
Proof.
  apply (setup_cold_boot_order tpm1_board cooperative 0 initial_world);
    reflexivity.
Defined.
